(** * gestor_passwords: the encrypted credential vault

    A shallow embedding of [crypto_utils.py] and of the [PasswordManager]
    class of [password_manager.py], and the properties of the vault that
    follow from the code.

    Layout of the development:
    - [Py]: the pieces of the Python runtime the code relies on: byte
      strings, text strings and the strict UTF-8 codec, exceptions, the
      file system with [open]/[read]/[write], [os.urandom], the clock;
    - [Lib]: the third-party and standard-library functions the code
      calls ([PBKDF2HMAC], [AESGCM], [base64], [json]), taken as an
      interface with the contract the code depends on;
    - [CryptoUtils]: the functions of [crypto_utils.py];
    - [Manager]: the class [PasswordManager];
    - [Model]: one executable instance of the [Lib] interface, used to
      evaluate the code on concrete inputs;
    - the theorems.

    Left out: what the handlers [print] (the messages go to the terminal
    and decide nothing), and the terminal front end of [main.py] and
    [ui.py]. *)

From Stdlib Require Import NArith ZArith Zify Lia Strings.Byte Ascii String.
From stdpp Require Import base option strings countable gmap list.

(** ** Python runtime *)
Module Py.

Local Open Scope N_scope.

(** [bytes]: an immutable sequence of octets. *)
Abbreviation bytes := (list byte).

(** [str]: a sequence of code points.  Python allows every value below
    0x110000, lone surrogates included; a number from 0x110000 on is no
    code point, and the codec below refuses it as it refuses a surrogate. *)
Abbreviation str := (list N).

(** A string literal of the source, as a [str]. *)
Definition lit (s : string) : str :=
  (fun a => N_of_ascii a) <$> list_ascii_of_string s.

Definition byte_of_N (n : N) : byte :=
  match Byte.of_N n with
  | Some b => b
  | None => x00
  end.

#[global] Instance byte_eq_dec : EqDecision byte.
Proof.
  intros x y. destruct (decide (Byte.to_N x = Byte.to_N y)) as [e|n].
  - left. apply (f_equal Byte.of_N) in e.
    rewrite !Byte.of_to_N in e. congruence.
  - right. congruence.
Defined.

(** *** The strict UTF-8 codec: [str.encode('utf-8')] and
    [bytes.decode('utf-8')] *)

Definition is_surrogate (c : N) : bool := (0xD800 <=? c) && (c <? 0xE000).

(** The encoding of one code point; [None] is [UnicodeEncodeError]. *)
Definition encode_cp (c : N) : option bytes :=
  if c <? 0x80 then Some [byte_of_N c]
  else if c <? 0x800 then
    Some [byte_of_N (0xC0 + c / 64); byte_of_N (0x80 + c mod 64)]
  else if c <? 0x10000 then
    if is_surrogate c then None
    else Some [byte_of_N (0xE0 + c / 4096);
               byte_of_N (0x80 + (c / 64) mod 64);
               byte_of_N (0x80 + c mod 64)]
  else if c <? 0x110000 then
    Some [byte_of_N (0xF0 + c / 262144);
          byte_of_N (0x80 + (c / 4096) mod 64);
          byte_of_N (0x80 + (c / 64) mod 64);
          byte_of_N (0x80 + c mod 64)]
  else None.

Fixpoint utf8_encode (s : str) : option bytes :=
  match s with
  | [] => Some []
  | c :: s' =>
      match encode_cp c, utf8_encode s' with
      | Some e, Some r => Some (e ++ r)
      | _, _ => None
      end
  end.

(** A continuation byte, 10xxxxxx. *)
Definition is_cont (b : byte) : bool :=
  (0x80 <=? Byte.to_N b) && (Byte.to_N b <? 0xC0).

Definition cont (b : byte) : N := Byte.to_N b - 0x80.

(** The decoder; [None] is [UnicodeDecodeError].  Overlong forms,
    surrogates, values above 0x10FFFF and truncated sequences are
    rejected. *)
Fixpoint utf8_decode (bs : bytes) : option str :=
  match bs with
  | [] => Some []
  | b0 :: r0 =>
      let n0 := Byte.to_N b0 in
      if n0 <? 0x80 then cons n0 <$> utf8_decode r0
      else if n0 <? 0xC2 then None
      else if n0 <? 0xE0 then
        match r0 with
        | b1 :: r1 =>
            if is_cont b1
            then cons ((n0 - 0xC0) * 64 + cont b1) <$> utf8_decode r1
            else None
        | _ => None
        end
      else if n0 <? 0xF0 then
        match r0 with
        | b1 :: b2 :: r2 =>
            let c := (n0 - 0xE0) * 4096 + cont b1 * 64 + cont b2 in
            if is_cont b1 && is_cont b2 && (0x800 <=? c)
               && negb (is_surrogate c)
            then cons c <$> utf8_decode r2
            else None
        | _ => None
        end
      else if n0 <? 0xF5 then
        match r0 with
        | b1 :: b2 :: b3 :: r3 =>
            let c := (n0 - 0xF0) * 262144 + cont b1 * 4096
                     + cont b2 * 64 + cont b3 in
            if is_cont b1 && is_cont b2 && is_cont b3
               && (0x10000 <=? c) && (c <? 0x110000)
            then cons c <$> utf8_decode r3
            else None
        | _ => None
        end
      else None
  end.

(** *** Exceptions and effects *)

(** The exception classes that the code can meet.  Every handler of the
    source is [except Exception], so the class never changes the control
    flow; it is kept to tell a raised error from a returned value. *)
Inductive exn : Set :=
  | OSError            (* open, read, write *)
  | UnicodeError       (* str.encode, bytes.decode *)
  | TypeError          (* a None where bytes are expected *)
  | ValueError         (* key or nonce of a wrong size *)
  | InvalidTag         (* cryptography.exceptions.InvalidTag *)
  | BinasciiError      (* base64.b64decode *)
  | JSONDecodeError.   (* json.loads *)

Inductive outcome (A : Type) : Type :=
  | Return (a : A)
  | Raise (e : exn).
Arguments Return {A} a.
Arguments Raise {A} e.

#[global] Instance exn_eq_dec : EqDecision exn.
Proof. solve_decision. Defined.

#[global] Instance outcome_eq_dec {A} `{EqDecision A} : EqDecision (outcome A).
Proof. solve_decision. Defined.

(** A computation over a state [S]: it ends by returning or by raising,
    and what it did to the state before raising stays done. *)
Definition M (S A : Type) : Type := S -> outcome A * S.

Definition ret {S A} (a : A) : M S A := fun s => (Return a, s).

Definition raise {S A} (e : exn) : M S A := fun s => (Raise e, s).

Definition bind {S A B} (m : M S A) (k : A -> M S B) : M S B :=
  fun s =>
    match m s with
    | (Return a, s') => k a s'
    | (Raise e, s') => (Raise e, s')
    end.

(** [try: m except Exception: h] *)
Definition try_except {S A} (m : M S A) (h : M S A) : M S A :=
  fun s =>
    match m s with
    | (Return a, s') => (Return a, s')
    | (Raise _, s') => h s'
    end.

Definition get {S} : M S S := fun s => (Return s, s).

Definition modify {S} (f : S -> S) : M S unit := fun s => (Return tt, f s).

(** A library call that either gives a value or raises [e]. *)
Definition or_raise {S A} (e : exn) (o : option A) : M S A :=
  match o with
  | Some a => ret a
  | None => raise e
  end.

#[global] Instance M_ret {S} : MRet (M S) := @ret S.
#[global] Instance M_bind {S} : MBind (M S) := fun A B k m => bind m k.
#[global] Instance M_fmap {S} : FMap (M S) :=
  fun A B f m => bind m (fun a => ret (f a)).

(** [for x in l: body x] *)
Fixpoint for_each {S A} (l : list A) (body : A -> M S unit) : M S unit :=
  match l with
  | [] => ret tt
  | x :: l' => bind (body x) (fun _ => for_each l' body)
  end.

(** [result = []; for x in l: result.append(f x)] *)
Fixpoint for_append {S A B} (l : list A) (f : A -> M S B) : M S (list B) :=
  match l with
  | [] => ret []
  | x :: l' => bind (f x) (fun y => bind (for_append l' f) (fun r => ret (y :: r)))
  end.

(** *** The world outside the process

    - [files]: the regular files of the working directory, by name;
      a name without an entry does not exist (or cannot be opened);
    - [write_budget]: how many more bytes the storage device takes
      before a write fails ([None]: it never fails);
    - [entropy]: the tape [os.urandom] reads from;
    - [today]: what [datetime.datetime.now().strftime("%Y-%m-%d")] gives. *)
Record World : Type := {
  files : gmap string bytes;
  write_budget : option nat;
  entropy : nat -> byte;
  today : str
}.

Definition set_files (f : gmap string bytes -> gmap string bytes) (w : World) : World :=
  {| files := f (files w); write_budget := write_budget w;
     entropy := entropy w; today := today w |}.

Definition set_write_budget (b : option nat) (w : World) : World :=
  {| files := files w; write_budget := b;
     entropy := entropy w; today := today w |}.

Definition set_entropy (e : nat -> byte) (w : World) : World :=
  {| files := files w; write_budget := write_budget w;
     entropy := e; today := today w |}.

(** [os.path.exists(path)] *)
Definition path_exists (path : string) : M World bool :=
  fun w => (Return (bool_decide (is_Some (files w !! path))), w).

(** [open(path, "rb")] followed by reading: the content of the file;
    [f.read(n)] calls on the handle are [take] and [drop] on it. *)
Definition open_rb (path : string) : M World bytes :=
  fun w =>
    match files w !! path with
    | Some content => (Return content, w)
    | None => (Raise OSError, w)
    end.

(** [open(path, "wb")]: the file is created, or truncated if it exists. *)
Definition open_wb (path : string) : M World unit :=
  modify (set_files (<[path := []]>)).

(** [f.write(data)] on a file opened by [open_wb], through to the device.
    When the device takes fewer bytes than [data] has, those are written
    and [OSError] is raised. *)
Definition write (path : string) (data : bytes) : M World unit :=
  fun w =>
    let old := default [] (files w !! path) in
    match write_budget w with
    | None => (Return tt, set_files (<[path := old ++ data]>) w)
    | Some k =>
        if decide (length data <= k)%nat
        then (Return tt,
              set_write_budget (Some (k - length data)%nat)
                (set_files (<[path := old ++ data]>) w))
        else (Raise OSError,
              set_write_budget (Some 0%nat)
                (set_files (<[path := old ++ take k data]>) w))
    end.

(** The next [n] bytes of the tape, and the world once they are used. *)
Definition tape_take (n : nat) (w : World) : bytes := entropy w <$> seq 0 n.

Definition tape_drop (n : nat) (w : World) : World :=
  set_entropy (fun i => entropy w (n + i)%nat) w.

(** [os.urandom(n)] *)
Definition urandom (n : nat) : M World bytes :=
  fun w => (Return (tape_take n w), tape_drop n w).

(** [datetime.datetime.now().strftime("%Y-%m-%d")] *)
Definition now_ymd : M World str := fun w => (Return (today w), w).

(** Running a computation on a part of the state. *)
Definition lift {S T A} (proj : S -> T) (inj : T -> S -> S) (m : M T A) : M S A :=
  fun s => let (r, t) := m (proj s) in (r, inj t s).

End Py.

Import Py.

(** ** Data model *)

(** One stored credential: the value the source keeps under each key of
    [self.passwords], a dict with the four keys below.  [password] holds
    the base64 text of the encrypted password. *)
Record entry : Type := {
  service : str;
  username : str;
  password : str;
  date : str
}.

#[global] Instance entry_eq_dec : EqDecision entry.
Proof. solve_decision. Defined.

(** A Python dict from [str] to [entry]: the items in insertion order.
    A dict has no two items with one key ([is_dict]). *)
Abbreviation dict := (list (str * entry)).

Definition is_dict (d : dict) : Prop := NoDup d.*1.

(** [d.get(k)], [None] when [k not in d] *)
Fixpoint dict_get (k : str) (d : dict) : option entry :=
  match d with
  | [] => None
  | (k', v) :: d' => if decide (k = k') then Some v else dict_get k d'
  end.

(** [k in d] *)
Definition dict_in (k : str) (d : dict) : bool :=
  bool_decide (is_Some (dict_get k d)).

(** [d[k] = v]: an existing key keeps its place, a new one goes last. *)
Fixpoint dict_set (k : str) (v : entry) (d : dict) : dict :=
  match d with
  | [] => [(k, v)]
  | (k', v') :: d' =>
      if decide (k = k') then (k, v) :: d' else (k', v') :: dict_set k v d'
  end.

(** [del d[k]] for a key that is present *)
Fixpoint dict_del (k : str) (d : dict) : dict :=
  match d with
  | [] => []
  | (k', v') :: d' =>
      if decide (k = k') then d' else (k', v') :: dict_del k d'
  end.

(** What a [data] or [password] argument can hold at run time: text, a
    byte string, or [None] (a password that failed to decrypt). *)
Inductive pydata : Type :=
  | DStr (s : str)
  | DBytes (b : bytes)
  | DNone.

(** ** The libraries the code calls *)
Module Lib.

(** The functions of [cryptography], [base64] and [json] that the code
    calls, as the code sees them.
    - [pbkdf2_hmac_sha256 n salt it pw] is
      [PBKDF2HMAC(SHA256(), length=n, salt=salt, iterations=it).derive(pw)];
    - [aesgcm_encrypt key nonce data] and [aesgcm_decrypt key nonce data]
      are [AESGCM(key).encrypt(nonce, data, None)] and [.decrypt] for a key
      and a nonce of an accepted size; [None] is [InvalidTag];
    - [b64encode], [b64decode]: of [base64]; [None] is [binascii.Error];
    - [json_dumps], [json_loads]: of [json], at the type of
      [self.passwords]; [None] is [JSONDecodeError]. *)
Record t : Type := {
  pbkdf2_hmac_sha256 : nat -> bytes -> N -> bytes -> bytes;
  aesgcm_encrypt : bytes -> bytes -> bytes -> bytes;
  aesgcm_decrypt : bytes -> bytes -> bytes -> option bytes;
  b64encode : bytes -> bytes;
  b64decode : str -> option bytes;
  json_dumps : dict -> str;
  json_loads : str -> option dict
}.

(** Key sizes [AESGCM] accepts. *)
Definition key_size_ok (key : bytes) : bool :=
  bool_decide (length key = 16 \/ length key = 24 \/ length key = 32)%nat.

(** Nonce sizes [AESGCM.encrypt] and [.decrypt] accept. *)
Definition nonce_size_ok (nonce : bytes) : bool :=
  bool_decide (8 <= length nonce <= 128)%nat.

Definition ascii_bytes (b : bytes) : Prop := Forall (fun x => (Byte.to_N x < 128)%N) b.

Definition ascii_str (s : str) : Prop := Forall (fun c => (c < 128)%N) s.

(** The contract the code depends on. *)
Record laws (L : t) : Prop := {
  pbkdf2_length : forall n salt it pw,
    length (pbkdf2_hmac_sha256 L n salt it pw) = n;
  aesgcm_roundtrip : forall key nonce data,
    key_size_ok key = true -> nonce_size_ok nonce = true ->
    aesgcm_decrypt L key nonce (aesgcm_encrypt L key nonce data) = Some data;
  b64_ascii : forall b, ascii_bytes (b64encode L b);
  b64_roundtrip : forall b,
    b64decode L (Byte.to_N <$> b64encode L b) = Some b;
  b64_empty : b64decode L [] = Some [];
  json_ascii : forall d, ascii_str (json_dumps L d);
  json_nonempty : forall d, json_dumps L d <> [];
  json_roundtrip : forall d,
    is_dict d -> json_loads L (json_dumps L d) = Some d
}.

Section Calls.
Context (L : t) {S : Type}.

(** [AESGCM(key)]: the constructor checks the key. *)
Definition AESGCM (key : option bytes) : M S bytes :=
  match key with
  | None => raise TypeError
  | Some k => if key_size_ok k then ret k else raise ValueError
  end.

(** [aesgcm.encrypt(nonce, data, None)] *)
Definition AESGCM_encrypt (aesgcm : bytes) (nonce : bytes) (data : pydata) : M S bytes :=
  match data with
  | DBytes b =>
      if nonce_size_ok nonce then ret (aesgcm_encrypt L aesgcm nonce b)
      else raise ValueError
  | _ => raise TypeError
  end.

(** [aesgcm.decrypt(nonce, data, None)]; a [data] too short to hold a tag
    is one of the inputs on which [aesgcm_decrypt] gives [None]. *)
Definition AESGCM_decrypt (aesgcm : bytes) (nonce : bytes) (data : bytes) : M S bytes :=
  if nonce_size_ok nonce
  then or_raise InvalidTag (aesgcm_decrypt L aesgcm nonce data)
  else raise ValueError.
End Calls.

End Lib.

(** ** crypto_utils.py *)
Module CryptoUtils.
Import Lib.

Definition SALT_SIZE : nat := 16.
Definition KEY_SIZE : nat := 32.
Definition NONCE_SIZE : nat := 12.
Definition ITERATIONS : N := 100000.

Section Functions.
Context (L : Lib.t).

Definition generate_salt : M World bytes := urandom SALT_SIZE.

Definition derive_key {S} (password : str) (salt : bytes) : M S bytes :=
  pw ← or_raise UnicodeError (utf8_encode password);
  mret (pbkdf2_hmac_sha256 L KEY_SIZE salt ITERATIONS pw).

Definition hash_password (password : str) (salt : option bytes) : M World (bytes * bytes) :=
  salt ← match salt with
         | None => generate_salt
         | Some s => mret s
         end;
  key ← derive_key password salt;
  mret (key, salt).

Definition setup_master_password (password : str) : M World bool :=
  try_except
    ('(key, salt) ← hash_password password None;
     open_wb "master.key";;
     write "master.key" salt;;
     write "master.key" key;;
     mret true)
    (mret false).

(** [secrets.compare_digest(a, b)] *)
Definition compare_digest (a b : bytes) : bool := bool_decide (a = b).

Definition verify_master_password (password : str) : M World bool :=
  try_except
    (f ← open_rb "master.key";
     let stored_salt := take SALT_SIZE f in
     let stored_key := take KEY_SIZE (drop SALT_SIZE f) in
     '(key, _) ← hash_password password (Some stored_salt);
     mret (compare_digest key stored_key))
    (mret false).

Definition encrypt_data (data : pydata) (key : option bytes) : M World bytes :=
  data ← match data with
         | DStr s => DBytes <$> or_raise UnicodeError (utf8_encode s)
         | _ => mret data
         end;
  nonce ← urandom NONCE_SIZE;
  aesgcm ← AESGCM key;
  ciphertext ← AESGCM_encrypt L aesgcm nonce data;
  mret (nonce ++ ciphertext).

Definition decrypt_data {S} (encrypted_data : bytes) (key : option bytes) : M S (option str) :=
  try_except
    (let nonce := take NONCE_SIZE encrypted_data in
     let ciphertext := drop NONCE_SIZE encrypted_data in
     aesgcm ← AESGCM key;
     plaintext ← AESGCM_decrypt L aesgcm nonce ciphertext;
     Some <$> or_raise UnicodeError (utf8_decode plaintext))
    (mret None).

Definition encrypt_password (password : pydata) (master_key : option bytes) : M World str :=
  encrypted ← encrypt_data password master_key;
  or_raise UnicodeError (utf8_decode (b64encode L encrypted)).

Definition decrypt_password {S} (encrypted_password : str) (master_key : option bytes) : M S (option str) :=
  try_except
    (encrypted_bytes ← or_raise BinasciiError (b64decode L encrypted_password);
     decrypt_data encrypted_bytes master_key)
    (mret None).

Definition get_master_key (password : str) : M World (option bytes) :=
  try_except
    (f ← open_rb "master.key";
     let salt := take SALT_SIZE f in
     '(key, _) ← hash_password password (Some salt);
     mret (Some key))
    (mret None).

(** *** Notions used in the statements below *)

(** What [encrypt_password] returns for the plaintext bytes [b] under the
    key [k], with the nonce that the tape of [w] gives. *)
Definition sealed_text (k : bytes) (w : World) (b : bytes) : str :=
  Byte.to_N <$> b64encode L
    (tape_take NONCE_SIZE w ++ aesgcm_encrypt L k (tape_take NONCE_SIZE w) b).

(** The key that [derive_key] gives for the encoded password [pw]. *)
Definition derived (salt pw : bytes) : bytes :=
  pbkdf2_hmac_sha256 L KEY_SIZE salt ITERATIONS pw.
End Functions.

End CryptoUtils.

(** ** password_manager.py: class PasswordManager *)
Module Manager.
Import Lib CryptoUtils.

(** The attributes of an instance. *)
Record PasswordManager : Type := {
  master_key : option bytes;
  db_file : string;
  passwords : dict
}.

(** A method runs on the instance and the world. *)
Record State : Type := { self : PasswordManager; world : World }.

Definition set_master_key (k : option bytes) (s : State) : State :=
  {| self := {| master_key := k; db_file := db_file (self s);
                passwords := passwords (self s) |};
     world := world s |}.

Definition set_db_file (f : string) (s : State) : State :=
  {| self := {| master_key := master_key (self s); db_file := f;
                passwords := passwords (self s) |};
     world := world s |}.

Definition set_passwords (f : dict -> dict) (s : State) : State :=
  {| self := {| master_key := master_key (self s); db_file := db_file (self s);
                passwords := f (passwords (self s)) |};
     world := world s |}.

(** A call into [os], [datetime] or [crypto_utils] from a method. *)
Definition io {A} (m : M World A) : M State A :=
  lift world (fun w s => {| self := self s; world := w |}) m.

(** A record as the methods hand it out:
    [(service, username, password, date)], the password decrypted, or
    [None] where decryption failed. *)
Definition row : Type := str * str * option str * str.

Definition password_arg (p : option str) : pydata :=
  match p with
  | Some s => DStr s
  | None => DNone
  end.

(** [f"{service}_{username}"] *)
Definition password_id (service username : str) : str :=
  service ++ lit "_" ++ username.

Section Methods.
Context (L : Lib.t).

Definition _load_passwords : M State dict :=
  s ← get;
  ex ← io (path_exists (db_file (self s)));
  if negb ex then mret []
  else
    try_except
      (encrypted_data ← io (open_rb (db_file (self s)));
       match encrypted_data with
       | [] => mret []
       | _ :: _ =>
           text ← or_raise UnicodeError (utf8_decode encrypted_data);
           json_data ← decrypt_password L text (master_key (self s));
           match json_data with
           | Some (c :: j) => or_raise JSONDecodeError (json_loads L (c :: j))
           | _ => mret []
           end
       end)
      (mret []).

Definition __init__ (master_password : str) : M State unit :=
  k ← io (get_master_key L master_password);
  modify (set_master_key k);;
  modify (set_db_file "passwords.db");;
  p ← _load_passwords;
  modify (set_passwords (fun _ => p)).

Definition _save_passwords : M State bool :=
  try_except
    (s ← get;
     let json_data := json_dumps L (passwords (self s)) in
     encrypted_data ← io (encrypt_password L (DStr json_data) (master_key (self s)));
     io (open_wb (db_file (self s)));;
     data ← or_raise UnicodeError (utf8_encode encrypted_data);
     io (write (db_file (self s)) data);;
     mret true)
    (mret false).

Definition add_password (service username : str) (password : pydata) : M State bool :=
  try_except
    (let password_id := password_id service username in
     s ← get;
     encrypted_password ← io (encrypt_password L password (master_key (self s)));
     today ← io now_ymd;
     modify (set_passwords (dict_set password_id
       {| service := service;
          username := username;
          password := encrypted_password;
          date := today |}));;
     _save_passwords)
    (mret false).

(** The tuple built from a stored record, its password decrypted. *)
Definition decrypted_row (key : option bytes) (password_data : entry) : M State row :=
  decrypted_password ← decrypt_password L (password password_data) key;
  mret (service password_data, username password_data,
        decrypted_password, date password_data).

Definition get_password (service username : str) : M State (option row) :=
  try_except
    (let password_id := password_id service username in
     s ← get;
     match dict_get password_id (passwords (self s)) with
     | Some password_data =>
         Some <$> decrypted_row (master_key (self s)) password_data
     | None => mret None
     end)
    (mret None).

Definition get_all_passwords : M State (list row) :=
  try_except
    (s ← get;
     for_append (passwords (self s))
       (fun item => decrypted_row (master_key (self s)) item.2))
    (mret []).

Definition delete_password (service username : str) : M State bool :=
  try_except
    (let password_id := password_id service username in
     s ← get;
     if dict_in password_id (passwords (self s))
     then modify (set_passwords (dict_del password_id));;
          _save_passwords
     else mret false)
    (mret false).

Definition change_master_password (new_password : str) : M State bool :=
  try_except
    (all_passwords ← get_all_passwords;
     io (setup_master_password L new_password);;
     new_master_key ← io (get_master_key L new_password);
     modify (set_master_key new_master_key);;
     modify (set_passwords (fun _ => []));;
     for_each all_passwords
       (fun '(service, username, password, _) =>
          add_password service username (password_arg password);;
          mret tt);;
     mret true)
    (mret false).

(** [PasswordManager(master_password)]: a new instance, initialised. *)
Definition new (master_password : str) (w : World) : outcome PasswordManager * World :=
  let blank := {| master_key := None; db_file := ""; passwords := [] |} in
  let (r, s) := __init__ master_password {| self := blank; world := w |} in
  (match r with
   | Return _ => Return (self s)
   | Raise e => Raise e
   end, world s).
End Methods.

(** *** Notions used in the statements below *)

(** The bytes [_save_passwords] writes for the dict [d] under the key
    [k], with the nonce that the tape of [w] gives. *)
Definition stored (L : Lib.t) (k : bytes) (w : World) (d : dict) : bytes :=
  b64encode L
    (tape_take NONCE_SIZE w
     ++ aesgcm_encrypt L k (tape_take NONCE_SIZE w)
          (default [] (utf8_encode (json_dumps L d)))).

(** The content of a store file does not decrypt under [key]: what
    [decrypt_password] is given comes back as [None]. *)
Definition decryption_fails (L : Lib.t) (content : bytes) (key : option bytes) : Prop :=
  forall text, utf8_decode content = Some text ->
    fst (decrypt_password L text key tt) = Return None.

(** An instance as the constructor leaves it when the verifier file was
    readable: a 32-byte key and the store file name. *)
Definition ready (o : PasswordManager) (k : bytes) : Prop :=
  master_key o = Some k /\ length k = KEY_SIZE /\ db_file o = "passwords.db".

(** The keys of the dict are the ids of the records under them, as
    [add_password] builds them. *)
Definition keyed (d : dict) : Prop :=
  Forall (fun kv => kv.1 = password_id (service kv.2) (username kv.2)) d.

(** The stored password of the record [e] decrypts to the text [p] under
    [key]. *)
Definition reads (L : Lib.t) (key : option bytes) (e : entry) (p : str) : Prop :=
  fst (decrypt_password L (password e) key tt) = Return (Some p).

(** The dict of a vault in order under the key [k]: a dict, keyed by the
    ids of its records, every password of which reads under [k].  The
    empty dict is, and [add_password] and [delete_password] keep it so. *)
Definition sound (L : Lib.t) (k : bytes) (d : dict) : Prop :=
  is_dict d /\ keyed d /\
  Forall (fun kv => exists p, reads L (Some k) kv.2 p) d.

(** The tuple [get_all_passwords] makes of the record [e]. *)
Definition row_of (L : Lib.t) (key : option bytes) (e : entry) : row :=
  (service e, username e,
   match fst (decrypt_password L (password e) key tt) with
   | Return p => p
   | Raise _ => None
   end,
   date e).

(** The item [y] is the item [x] encrypted again: the same key of the
    dict, service and user name, and a password that reads under [nk] as
    the one of [x] reads under [k]. *)
Definition rekeyed (L : Lib.t) (k nk : bytes) (x y : str * entry) : Prop :=
  y.1 = x.1 /\ service y.2 = service x.2 /\ username y.2 = username x.2 /\
  forall p, reads L (Some k) x.2 p -> reads L (Some nk) y.2 p.

(** Running a method on an instance. *)
Definition call {A} (m : M State A) (o : PasswordManager) (w : World)
  : outcome A * PasswordManager * World :=
  let (r, s) := m {| self := o; world := w |} in (r, self s, world s).

(** *** search_passwords

    [str.lower] is taken as a parameter; [a in b] on strings is
    [contains b a] below. *)

(** [s.startswith(q)] *)
Fixpoint starts_with (s q : str) : bool :=
  match q, s with
  | [], _ => true
  | _ :: _, [] => false
  | c :: q', c' :: s' => bool_decide (c = c') && starts_with s' q'
  end.

(** [q in s] *)
Fixpoint contains (s q : str) : bool :=
  starts_with s q ||
  match s with
  | [] => false
  | _ :: s' => contains s' q
  end.

(** [result = []; for x in l: if ...: result.append(...)]: the body gives
    what it appends, if anything. *)
Fixpoint for_collect {S A B} (l : list A) (body : A -> M S (option B)) : M S (list B) :=
  match l with
  | [] => ret []
  | x :: l' =>
      bind (body x) (fun y =>
      bind (for_collect l' body) (fun r =>
      ret (match y with Some b => b :: r | None => r end)))
  end.

Section Search.
Context (L : Lib.t) (lower : str -> str).

Definition search_passwords (query : str) : M State (list row) :=
  try_except
    (let query := lower query in
     s ← get;
     for_collect (passwords (self s))
       (fun item =>
          let password_data := item.2 in
          if contains (lower (service password_data)) query
          then Some <$> decrypted_row L (master_key (self s)) password_data
          else mret None))
    (mret []).
End Search.

(** The stored password of the item reads as some text under [key]. *)
Definition readable (L : Lib.t) (key : option bytes) (kv : str * entry) : bool :=
  match fst (decrypt_password L (password kv.2) key tt) with
  | Return (Some _) => true
  | _ => false
  end.

(** The service a row is for. *)
Definition row_service (r : row) : str := r.1.1.1.

End Manager.

(** ** An executable instance of the library interface

    Small stand-ins with the shape and the contract of the real functions
    (and none of their secrecy), on which the code can be run. *)
Module Model.
Import Lib.

(** Key derivation: the first [n] bytes of password, salt and padding. *)
Definition kdf (n : nat) (salt : bytes) (it : N) (pw : bytes) : bytes :=
  take n (pw ++ salt ++ replicate n x00).

(** A 16-byte tag that depends on the key. *)
Definition tag (key : bytes) : bytes := take 16 (key ++ replicate 16 x00).

Definition seal (key nonce data : bytes) : bytes := data ++ tag key.

Definition unseal (key nonce data : bytes) : option bytes :=
  let n := (length data - 16)%nat in
  if decide (drop n data = tag key) then Some (take n data) else None.

(** Two letters of [A..P] for each byte. *)
Definition b64e (b : bytes) : bytes :=
  b ≫= (fun x => [byte_of_N (65 + Byte.to_N x / 16)%N;
                  byte_of_N (65 + Byte.to_N x mod 16)%N]).

Definition nibble (c : N) : option N :=
  if ((65 <=? c) && (c <? 81))%N then Some (c - 65)%N else None.

Fixpoint b64d (s : str) : option bytes :=
  match s with
  | [] => Some []
  | h :: l :: r =>
      match nibble h, nibble l, b64d r with
      | Some x, Some y, Some bs => Some (byte_of_N (x * 16 + y)%N :: bs)
      | _, _, _ => None
      end
  | _ => None
  end.

(** A dict as a sequence of numbers: how many items, then for each item
    its key and its four fields, every string behind its length. *)
Definition flat_str (s : str) : list N := N.of_nat (length s) :: s.

Definition flat_item (kv : str * entry) : list N :=
  flat_str kv.1 ++ flat_str (service kv.2) ++ flat_str (username kv.2)
  ++ flat_str (password kv.2) ++ flat_str (date kv.2).

Definition flat (d : dict) : list N :=
  N.of_nat (length d) :: (d ≫= flat_item).

Definition take_str (l : list N) : option (str * list N) :=
  match l with
  | [] => None
  | n :: r =>
      if decide (N.to_nat n <= length r)%nat
      then Some (take (N.to_nat n) r, drop (N.to_nat n) r)
      else None
  end.

Definition take_item (l : list N) : option ((str * entry) * list N) :=
  '(k, l) ← take_str l;
  '(s, l) ← take_str l;
  '(u, l) ← take_str l;
  '(p, l) ← take_str l;
  '(d, l) ← take_str l;
  Some ((k, {| service := s; username := u; password := p; date := d |}), l).

Fixpoint take_items (n : nat) (l : list N) : option (dict * list N) :=
  match n with
  | O => Some ([], l)
  | S n' =>
      '(x, l) ← take_item l;
      '(d, l) ← take_items n' l;
      Some (x :: d, l)
  end.

Definition unflat (l : list N) : option dict :=
  match l with
  | [] => None
  | n :: r =>
      match take_items (N.to_nat n) r with
      | Some (d, []) => Some d
      | _ => None
      end
  end.

(** The numbers as text: an opening brace, then the binary digits of
    their code. *)
Fixpoint digits (p : positive) : str :=
  match p with
  | xH => []
  | xO q => 48%N :: digits q
  | xI q => 49%N :: digits q
  end.

Fixpoint undigits (s : str) : option positive :=
  match s with
  | [] => Some xH
  | c :: r =>
      if (c =? 48)%N then xO <$> undigits r
      else if (c =? 49)%N then xI <$> undigits r
      else None
  end.

Definition dumps (d : dict) : str := 123%N :: digits (encode (flat d)).

Definition loads (s : str) : option dict :=
  match s with
  | 123%N :: r =>
      p ← undigits r;
      l ← decode p;
      d ← unflat l;
      if decide (is_dict d) then Some d else None
  | _ => None
  end.

Definition lib : Lib.t := {|
  pbkdf2_hmac_sha256 := kdf;
  aesgcm_encrypt := seal;
  aesgcm_decrypt := unseal;
  b64encode := b64e;
  b64decode := b64d;
  json_dumps := dumps;
  json_loads := loads
|}.

(** A first run: no files yet, a device that never fails. *)
Definition fresh : World := {|
  files := ∅;
  write_budget := None;
  entropy := fun i => byte_of_N (N.of_nat (7 * i + 3) mod 256);
  today := lit "2024-05-17"
|}.

(** A session on it: the first run sets the master password, the vault
    is opened and one record is added. *)
Definition master : str := lit "correct-password".

Definition after_setup : World :=
  (CryptoUtils.setup_master_password lib master fresh).2.

Definition opened (pw : str) (w : World) : Manager.PasswordManager :=
  match Manager.new lib pw w with
  | (Return o, _) => o
  | (Raise _, _) =>
      {| Manager.master_key := None; Manager.db_file := "";
         Manager.passwords := [] |}
  end.

(** The instance the first opening gives, with no record yet. *)
Definition newcomer : Manager.PasswordManager := opened master after_setup.

Definition session :=
  Manager.call
    (Manager.add_password lib (lit "github") (lit "me") (DStr (lit "secret123")))
    newcomer after_setup.

(** The instance and the world at the end of the session. *)
Definition owner : Manager.PasswordManager := session.1.2.

Definition vault : World := session.2.

(** The key of the session. *)
Definition key : bytes := default [] (Manager.master_key owner).

(** The store file of the session. *)
Definition store : bytes := default [] (files vault !! "passwords.db").

(** The key that opening the vault with the password [pw] works with. *)
Definition key_of (pw : str) (w : World) : option bytes :=
  match CryptoUtils.get_master_key lib pw w with
  | (Return k, _) => k
  | (Raise _, _) => None
  end.

(** Somebody else's guess at the master password. *)
Definition guess : str := lit "other-password".

(** A 32-byte key and another one. *)
Definition key1 : bytes := replicate 32 x01.

Definition key2 : bytes := replicate 32 x02.

(** A password encrypted under [key1], and the same blob with the lowest
    bit of its last byte flipped. *)
Definition blob : bytes :=
  match CryptoUtils.encrypt_data lib (DStr (lit "secret123")) (Some key1) fresh with
  | (Return b, _) => b
  | (Raise _, _) => []
  end.

Definition tampered : bytes := <[(length blob - 1)%nat := x00]> blob.

(** The verifier file of the session. *)
Definition verifier : bytes := default [] (files after_setup !! "master.key").

(** The master password after the change, encoded. *)
Definition successor : str := lit "new-password-1".

Definition successor_bytes : bytes := default [] (utf8_encode successor).

(** The session on a device with room for five more bytes. *)
Definition full_disk : World := set_write_budget (Some 5%nat) vault.


(** [str.lower] on the letters A to Z. *)
Definition lower (s : str) : str :=
  (fun c : N => if ((65 <=? c) && (c <=? 90))%N then (c + 32)%N else c) <$> s.

(** The world of the session with its verifier file cut to five
    bytes. *)
Definition cut_verifier : World :=
  set_files (<["master.key" := take 5 verifier]>) vault.

(** The session after one more [_save_passwords]. *)
Definition saved := Manager.call (Manager._save_passwords lib) owner vault.
End Model.
(** * Properties *)

(** [lia] with division and remainder by constants. *)
Ltac Zify.zify_post_hook ::= Z.to_euclidean_division_equations.

Section Bytes.
Local Open Scope N_scope.

Lemma to_N_lt b : Byte.to_N b < 256.
Proof. pose proof (Byte.to_N_bounded b). lia. Qed.

Lemma to_N_byte_of_N n : n < 256 -> Byte.to_N (byte_of_N n) = n.
Proof.
intros H. unfold byte_of_N. destruct (Byte.of_N n) eqn:E.
- by apply Byte.to_of_N.
- apply Byte.of_N_None_iff in E. lia.
Qed.

Lemma byte_of_N_to_N b : byte_of_N (Byte.to_N b) = b.
Proof. unfold byte_of_N. by rewrite Byte.of_to_N. Qed.

Lemma to_N_inj b1 b2 : Byte.to_N b1 = Byte.to_N b2 -> b1 = b2.
Proof. intros H. rewrite <- (byte_of_N_to_N b1), H. apply byte_of_N_to_N. Qed.
End Bytes.

Section Utf8.
Local Open Scope N_scope.

(** One step of the decoder. *)
Lemma utf8_decode_cons b0 r0 :
utf8_decode (b0 :: r0) =
  let n0 := Byte.to_N b0 in
  if n0 <? 0x80 then cons n0 <$> utf8_decode r0
  else if n0 <? 0xC2 then None
  else if n0 <? 0xE0 then
    match r0 with
    | b1 :: r1 =>
        if is_cont b1
        then cons ((n0 - 0xC0) * 64 + cont b1) <$> utf8_decode r1
        else None
    | _ => None
    end
  else if n0 <? 0xF0 then
    match r0 with
    | b1 :: b2 :: r2 =>
        let c := (n0 - 0xE0) * 4096 + cont b1 * 64 + cont b2 in
        if is_cont b1 && is_cont b2 && (0x800 <=? c)
           && negb (is_surrogate c)
        then cons c <$> utf8_decode r2
        else None
    | _ => None
    end
  else if n0 <? 0xF5 then
    match r0 with
    | b1 :: b2 :: b3 :: r3 =>
        let c := (n0 - 0xF0) * 262144 + cont b1 * 4096
                 + cont b2 * 64 + cont b3 in
        if is_cont b1 && is_cont b2 && is_cont b3
           && (0x10000 <=? c) && (c <? 0x110000)
        then cons c <$> utf8_decode r3
        else None
    | _ => None
    end
  else None.
Proof. reflexivity. Qed.

Ltac ltb_true := rewrite (proj2 (N.ltb_lt _ _)) by lia.
Ltac ltb_false := rewrite (proj2 (N.ltb_ge _ _)) by lia.
Ltac leb_true := rewrite (proj2 (N.leb_le _ _)) by lia.
Ltac leb_false := rewrite (proj2 (N.leb_gt _ _)) by lia.

Lemma is_cont_byte_of_N n :
0x80 <= n < 0xC0 -> is_cont (byte_of_N n) = true /\ cont (byte_of_N n) = n - 0x80.
Proof.
intros H. unfold is_cont, cont. rewrite to_N_byte_of_N by lia.
leb_true. ltb_true. done.
Qed.

(** Decoding undoes the encoding of one code point. *)
Lemma decode_encode_cp c e r :
encode_cp c = Some e ->
utf8_decode (e ++ r) = cons c <$> utf8_decode r.
Proof.
unfold encode_cp. intros H.
destruct (N.ltb_spec c 0x80).
{ injection H as <-. cbn [app]. rewrite utf8_decode_cons. cbv zeta.
  rewrite to_N_byte_of_N by lia. by ltb_true. }
destruct (N.ltb_spec c 0x800).
{ injection H as <-. cbn [app]. rewrite utf8_decode_cons. cbv zeta.
  rewrite to_N_byte_of_N by lia. do 2 ltb_false. ltb_true.
  destruct (is_cont_byte_of_N (0x80 + c mod 64)) as [-> ->]; [lia|].
  do 2 f_equal. lia. }
destruct (N.ltb_spec c 0x10000).
{ destruct (is_surrogate c) eqn:Hs; [done|]. injection H as <-.
  cbn [app]. rewrite utf8_decode_cons. cbv zeta.
  rewrite to_N_byte_of_N by lia. do 3 ltb_false. ltb_true.
  destruct (is_cont_byte_of_N (0x80 + (c / 64) mod 64)) as [-> ->]; [lia|].
  destruct (is_cont_byte_of_N (0x80 + c mod 64)) as [-> ->]; [lia|].
  replace ((0xE0 + c / 4096 - 0xE0) * 4096
           + (0x80 + (c / 64) mod 64 - 0x80) * 64
           + (0x80 + c mod 64 - 0x80)) with c by lia.
  rewrite Hs. leb_true. done. }
destruct (N.ltb_spec c 0x110000); [|done].
injection H as <-. cbn [app]. rewrite utf8_decode_cons. cbv zeta.
rewrite to_N_byte_of_N by lia. do 4 ltb_false. ltb_true.
destruct (is_cont_byte_of_N (0x80 + (c / 4096) mod 64)) as [-> ->]; [lia|].
destruct (is_cont_byte_of_N (0x80 + (c / 64) mod 64)) as [-> ->]; [lia|].
destruct (is_cont_byte_of_N (0x80 + c mod 64)) as [-> ->]; [lia|].
replace ((0xF0 + c / 262144 - 0xF0) * 262144
         + (0x80 + (c / 4096) mod 64 - 0x80) * 4096
         + (0x80 + (c / 64) mod 64 - 0x80) * 64
         + (0x80 + c mod 64 - 0x80)) with c by lia.
leb_true. ltb_true. done.
Qed.

(** [s.encode('utf-8').decode('utf-8') == s] *)
Lemma utf8_decode_encode s b :
utf8_encode s = Some b -> utf8_decode b = Some s.
Proof.
revert b. induction s as [|c s IH]; intros b H; simpl in H.
- by injection H as <-.
- destruct (encode_cp c) as [e|] eqn:He; [|done].
  destruct (utf8_encode s) as [r|]; [|done]. injection H as <-.
  rewrite (decode_encode_cp _ _ _ He), (IH r eq_refl). done.
Qed.

Lemma byte_of_N_eq n b : Byte.to_N b = n -> byte_of_N n = b.
Proof. intros <-. apply byte_of_N_to_N. Qed.

Lemma is_cont_true b : is_cont b = true -> 0x80 <= Byte.to_N b < 0xC0.
Proof.
unfold is_cont. intros [H1 H2]%andb_prop.
apply N.leb_le in H1. apply N.ltb_lt in H2. done.
Qed.

(** The decoder accepts only what the encoder produces. *)
Lemma utf8_encode_decode_aux n : forall b s,
(length b <= n)%nat -> utf8_decode b = Some s -> utf8_encode s = Some b.
Proof.
induction n as [|n IH]; intros b s Hn H.
{ destruct b; [|simpl in Hn; lia]. by injection H as <-. }
destruct b as [|b0 r0]; [by injection H as <-|].
rewrite utf8_decode_cons in H. cbv zeta in H. simpl in Hn.
destruct (N.ltb_spec (Byte.to_N b0) 0x80).
{ destruct (utf8_decode r0) as [s'|] eqn:Hr; [|done]. injection H as <-.
  simpl. rewrite (IH r0 s') by (done || lia).
  unfold encode_cp. ltb_true. by rewrite byte_of_N_to_N. }
destruct (N.ltb_spec (Byte.to_N b0) 0xC2); [done|].
destruct (N.ltb_spec (Byte.to_N b0) 0xE0).
{ destruct r0 as [|b1 r1]; [done|].
  destruct (is_cont b1) eqn:Hc1; [|done]. apply is_cont_true in Hc1.
  destruct (utf8_decode r1) as [s'|] eqn:Hr; [|done]. injection H as <-.
  simpl in Hn. simpl. rewrite (IH r1 s') by (done || lia).
  unfold encode_cp, cont. ltb_false. ltb_true.
  simpl. do 2 f_equal; [|f_equal]; apply byte_of_N_eq; lia. }
destruct (N.ltb_spec (Byte.to_N b0) 0xF0).
{ destruct r0 as [|b1 [|b2 r2]]; [done..|].
  destruct (is_cont b1) eqn:Hc1; [|done]. apply is_cont_true in Hc1.
  destruct (is_cont b2) eqn:Hc2; [|done]. apply is_cont_true in Hc2.
  cbn [andb] in H.
  destruct (N.leb_spec 0x800
    ((Byte.to_N b0 - 0xE0) * 4096 + cont b1 * 64 + cont b2)); [|done].
  cbn [andb] in H.
  destruct (is_surrogate _) eqn:Hs; [done|]. cbn [negb] in H.
  destruct (utf8_decode r2) as [s'|] eqn:Hr; [|done]. injection H as <-.
  simpl in Hn. simpl. rewrite (IH r2 s') by (done || lia).
  unfold encode_cp. rewrite Hs. unfold cont in *.
  do 2 ltb_false. ltb_true.
  simpl. do 2 f_equal; [|f_equal; [|f_equal]]; apply byte_of_N_eq; lia. }
destruct (N.ltb_spec (Byte.to_N b0) 0xF5); [|done].
destruct r0 as [|b1 [|b2 [|b3 r3]]]; [done..|].
destruct (is_cont b1) eqn:Hc1; [|done]. apply is_cont_true in Hc1.
destruct (is_cont b2) eqn:Hc2; [|done]. apply is_cont_true in Hc2.
destruct (is_cont b3) eqn:Hc3; [|done]. apply is_cont_true in Hc3.
cbn [andb] in H.
destruct (N.leb_spec 0x10000
  ((Byte.to_N b0 - 0xF0) * 262144 + cont b1 * 4096
   + cont b2 * 64 + cont b3)); [|done].
cbn [andb] in H.
destruct (N.ltb_spec
  ((Byte.to_N b0 - 0xF0) * 262144 + cont b1 * 4096
   + cont b2 * 64 + cont b3) 0x110000); [|done].
destruct (utf8_decode r3) as [s'|] eqn:Hr; [|done]. injection H as <-.
simpl in Hn. simpl. rewrite (IH r3 s') by (done || lia).
unfold encode_cp. unfold cont in *.
do 3 ltb_false. ltb_true.
simpl. do 2 f_equal; [|f_equal; [|f_equal; [|f_equal]]];
  apply byte_of_N_eq; lia.
Qed.

(** [b.decode('utf-8').encode('utf-8') == b] *)
Lemma utf8_encode_decode b s :
utf8_decode b = Some s -> utf8_encode s = Some b.
Proof. apply (utf8_encode_decode_aux (length b)). done. Qed.

(** ASCII text and ASCII bytes are each other's encoding. *)
Lemma utf8_decode_ascii b :
Lib.ascii_bytes b -> utf8_decode b = Some (Byte.to_N <$> b).
Proof.
induction 1 as [|x b Hx _ IH]; [done|].
rewrite utf8_decode_cons. cbv zeta. ltb_true. by rewrite IH.
Qed.

Lemma utf8_encode_ascii b :
Lib.ascii_bytes b -> utf8_encode (Byte.to_N <$> b) = Some b.
Proof. intros H. by apply utf8_encode_decode, utf8_decode_ascii. Qed.

Lemma utf8_encode_ascii_str s :
Lib.ascii_str s -> is_Some (utf8_encode s).
Proof.
induction 1 as [|c s Hc _ [r IH]]; [by eexists|].
simpl. rewrite IH. unfold encode_cp. ltb_true. by eexists.
Qed.
End Utf8.

(** ** The executable instance meets the contract *)
Section ModelLaws.
Import Lib Model.

Lemma kdf_length n salt it pw : length (kdf n salt it pw) = n.
Proof.
unfold kdf. rewrite length_take, !length_app, length_replicate. lia.
Qed.

Lemma tag_length key : length (tag key) = 16%nat.
Proof.
unfold tag. rewrite length_take, length_app, length_replicate. lia.
Qed.

Lemma unseal_seal key nonce data :
unseal key nonce (seal key nonce data) = Some data.
Proof.
unfold unseal, seal. rewrite length_app, tag_length.
replace (length data + 16 - 16)%nat with (length data) by lia.
rewrite drop_app_length, take_app_length. by rewrite decide_True.
Qed.

Lemma b64e_ascii b : ascii_bytes (b64e b).
Proof.
unfold ascii_bytes, b64e. induction b as [|x b IH]; [constructor|].
pose proof (to_N_lt x).
simpl. repeat constructor; [..|done]; rewrite to_N_byte_of_N; lia.
Qed.

Lemma b64d_b64e b : b64d (Byte.to_N <$> b64e b) = Some b.
Proof.
unfold b64e. induction b as [|x b IH]; [done|].
pose proof (to_N_lt x).
cbn [mbind list_bind app fmap list_fmap b64d]. fold (b64e b) in *.
change (list_fmap _ _ Byte.to_N (b64e b)) with (Byte.to_N <$> b64e b).
rewrite !to_N_byte_of_N by lia. rewrite IH. unfold nibble.
repeat (rewrite (proj2 (N.leb_le _ _)) by lia).
repeat (rewrite (proj2 (N.ltb_lt _ _)) by lia).
cbn [andb]. do 2 f_equal. apply byte_of_N_eq. lia.
Qed.

Lemma digits_ascii p : ascii_str (digits p).
Proof. induction p; simpl; constructor; (done || lia). Qed.

Lemma undigits_digits p : undigits (digits p) = Some p.
Proof. induction p as [p IH|p IH|]; simpl; by rewrite ?IH. Qed.

Lemma take_str_flat s r : take_str (flat_str s ++ r) = Some (s, r).
Proof.
unfold take_str, flat_str. cbn [app]. rewrite Nat2N.id.
rewrite decide_True by (rewrite length_app; lia).
by rewrite take_app_length, drop_app_length.
Qed.

Lemma take_item_flat kv r : take_item (flat_item kv ++ r) = Some (kv, r).
Proof.
destruct kv as [k [s u p d]]. unfold take_item, flat_item. cbn [fst snd
  service username password date].
rewrite <- !app_assoc.
repeat (rewrite take_str_flat; cbn [mbind option_bind]). done.
Qed.

Lemma take_items_flat d r :
take_items (length d) ((d ≫= flat_item) ++ r) = Some (d, r).
Proof.
induction d as [|kv d IH]; [done|].
cbn [length take_items mbind list_bind]. rewrite <- app_assoc.
rewrite take_item_flat. cbn [mbind option_bind].
change (list_bind _ _ flat_item d) with (d ≫= flat_item).
by rewrite IH.
Qed.

Lemma unflat_flat d : unflat (flat d) = Some d.
Proof.
unfold unflat, flat. rewrite Nat2N.id.
rewrite <- (app_nil_r (d ≫= flat_item)). by rewrite take_items_flat.
Qed.

Lemma loads_dumps d : is_dict d -> loads (dumps d) = Some d.
Proof.
intros H. unfold loads, dumps. rewrite undigits_digits. cbn [mbind option_bind].
rewrite decode_encode. cbn [mbind option_bind]. rewrite unflat_flat.
cbn [mbind option_bind]. by rewrite decide_True.
Qed.

Lemma lib_laws : laws lib.
Proof.
constructor; simpl.
- apply kdf_length.
- intros. apply unseal_seal.
- apply b64e_ascii.
- apply b64d_b64e.
- done.
- intros d. constructor; [lia | apply digits_ascii].
- done.
- apply loads_dumps.
Qed.
End ModelLaws.

(** ** Reasoning about computations *)
Section Monad.
Context {S : Type}.

Lemma bind_eq {A B} (m : M S A) (k : A -> M S B) s :
(m ≫= k) s =
  match m s with
  | (Return a, s') => k a s'
  | (Raise e, s') => (Raise e, s')
  end.
Proof. reflexivity. Qed.

Lemma fmap_eq {A B} (f : A -> B) (m : M S A) s :
(f <$> m) s =
  match m s with
  | (Return a, s') => (Return (f a), s')
  | (Raise e, s') => (Raise e, s')
  end.
Proof. reflexivity. Qed.

Lemma try_except_eq {A} (m h : M S A) s :
try_except m h s =
  match m s with
  | (Return a, s') => (Return a, s')
  | (Raise _, s') => h s'
  end.
Proof. reflexivity. Qed.

Lemma mret_eq {A} (a : A) (s : S) : (mret a : M S A) s = (Return a, s).
Proof. reflexivity. Qed.
End Monad.

(** Unfolds the operations of [M] (and not the [fmap] of lists). *)
Ltac mrun :=
  repeat first
    [ rewrite bind_eq | rewrite fmap_eq | rewrite try_except_eq
    | rewrite mret_eq
    | progress cbv beta iota delta
        [or_raise raise ret get modify Manager.io lift]
    | progress cbn [Manager.self Manager.world fst snd] ].

(** ** crypto_utils.py *)
Section CryptoUtilsFacts.
Import Lib CryptoUtils.
Context (L : Lib.t).

Lemma tape_take_length n w : length (tape_take n w) = n.
Proof. unfold tape_take. by rewrite length_fmap, length_seq. Qed.

Lemma nonce_ok w : nonce_size_ok (tape_take NONCE_SIZE w) = true.
Proof. reflexivity. Qed.

Lemma key_size_32 k : length k = 32%nat -> key_size_ok k = true.
Proof. intros H. unfold key_size_ok. rewrite H. reflexivity. Qed.

(** [decrypt_data] does not touch the state it runs in. *)
Lemma decrypt_data_pure {S} blob key (s : S) :
decrypt_data L blob key s = (fst (decrypt_data L blob key tt), s).
Proof.
unfold decrypt_data, AESGCM, AESGCM_decrypt. mrun.
destruct key as [k|]; [|done].
destruct (key_size_ok k); [|done]. mrun.
destruct (nonce_size_ok _); [|done]. mrun.
destruct (aesgcm_decrypt _ _ _ _) as [pt|]; [|done]. mrun.
destruct (utf8_decode pt); done.
Qed.

(** Every exception inside [decrypt_data] ends in the handler. *)
Lemma decrypt_data_total {S} blob key (s : S) :
exists r, decrypt_data L blob key s = (Return r, s).
Proof.
unfold decrypt_data, AESGCM, AESGCM_decrypt. mrun.
destruct key as [k|]; [|by eexists].
destruct (key_size_ok k); [|by eexists]. mrun.
destruct (nonce_size_ok _); [|by eexists]. mrun.
destruct (aesgcm_decrypt _ _ _ _) as [pt|]; [|by eexists]. mrun.
destruct (utf8_decode pt); by eexists.
Qed.

Lemma decrypt_data_ok {S} blob k pt (s : S) :
key_size_ok k = true ->
nonce_size_ok (take NONCE_SIZE blob) = true ->
aesgcm_decrypt L k (take NONCE_SIZE blob) (drop NONCE_SIZE blob) = Some pt ->
decrypt_data L blob (Some k) s = (Return (utf8_decode pt), s).
Proof.
intros Hk Hn Hd. unfold decrypt_data, AESGCM, AESGCM_decrypt. mrun.
rewrite Hk. mrun. rewrite Hn, Hd. mrun. by destruct (utf8_decode pt).
Qed.

Lemma decrypt_data_some {S} blob key p (s s' : S) :
decrypt_data L blob key s = (Return (Some p), s') ->
exists k pt, key = Some k /\
  aesgcm_decrypt L k (take NONCE_SIZE blob) (drop NONCE_SIZE blob) = Some pt /\
  utf8_decode pt = Some p.
Proof.
unfold decrypt_data, AESGCM, AESGCM_decrypt. mrun.
destruct key as [k|]; mrun; [|done].
destruct (key_size_ok k); mrun; [|done].
destruct (nonce_size_ok _); mrun; [|done].
destruct (aesgcm_decrypt _ _ _ _) as [pt|] eqn:Hd; mrun; [|done].
destruct (utf8_decode pt) eqn:E; mrun; [|done].
intros [= <- _]. by exists k, pt.
Qed.

Lemma encrypt_data_bytes b k w :
key_size_ok k = true ->
encrypt_data L (DBytes b) (Some k) w =
  (Return (tape_take NONCE_SIZE w
           ++ aesgcm_encrypt L k (tape_take NONCE_SIZE w) b),
   tape_drop NONCE_SIZE w).
Proof.
intros Hk. unfold encrypt_data, AESGCM, AESGCM_encrypt, urandom. mrun.
rewrite Hk. mrun. by rewrite nonce_ok.
Qed.

Lemma encrypt_data_str s b k w :
utf8_encode s = Some b -> key_size_ok k = true ->
encrypt_data L (DStr s) (Some k) w =
  (Return (tape_take NONCE_SIZE w
           ++ aesgcm_encrypt L k (tape_take NONCE_SIZE w) b),
   tape_drop NONCE_SIZE w).
Proof.
intros Hs Hk. unfold encrypt_data, AESGCM, AESGCM_encrypt, urandom. mrun.
rewrite Hs. mrun. rewrite Hk. mrun. by rewrite nonce_ok.
Qed.

Lemma encrypt_data_none key w :
exists e, encrypt_data L DNone key w = (Raise e, tape_drop NONCE_SIZE w).
Proof.
unfold encrypt_data, AESGCM, AESGCM_encrypt, urandom. mrun.
destruct key as [k|]; [|by eexists].
destruct (key_size_ok k); by eexists.
Qed.

Context (HL : laws L).

(** What was encrypted under a key decrypts under it. *)
Lemma decrypt_sealed {S} k w b (s : S) :
key_size_ok k = true ->
decrypt_data L
  (tape_take NONCE_SIZE w ++ aesgcm_encrypt L k (tape_take NONCE_SIZE w) b)
  (Some k) s = (Return (utf8_decode b), s).
Proof.
intros Hk. apply decrypt_data_ok; [done|..].
- by rewrite take_app_length' by by rewrite tape_take_length.
- rewrite take_app_length', drop_app_length'
    by by rewrite tape_take_length.
  by apply aesgcm_roundtrip.
Qed.

Lemma decrypt_password_pure {S} text key (s : S) :
decrypt_password L text key s = (fst (decrypt_password L text key tt), s).
Proof.
unfold decrypt_password. mrun.
destruct (b64decode L text) as [b|]; mrun; [|done].
rewrite (decrypt_data_pure _ key s), (decrypt_data_pure _ key tt).
destruct (decrypt_data_total b key tt) as [r ->]. done.
Qed.

Lemma decrypt_password_total {S} text key (s : S) :
exists r, decrypt_password L text key s = (Return r, s).
Proof.
unfold decrypt_password. mrun.
destruct (b64decode L text) as [b|]; mrun; [|by eexists].
destruct (decrypt_data_total b key s) as [r ->]. by eexists.
Qed.

(** Moving a result of [decrypt_password] to another state. *)
Lemma decrypt_password_any {S T} text key r (s s' : S) (t : T) :
decrypt_password L text key s = (r, s') ->
decrypt_password L text key t = (r, t).
Proof.
rewrite (decrypt_password_pure _ _ s), (decrypt_password_pure _ _ t).
by intros [= -> _].
Qed.

Lemma encrypt_password_str s b k w :
utf8_encode s = Some b -> key_size_ok k = true ->
encrypt_password L (DStr s) (Some k) w =
  (Return (sealed_text L k w b), tape_drop NONCE_SIZE w).
Proof.
intros Hs Hk. unfold encrypt_password. mrun.
rewrite (encrypt_data_str _ _ _ _ Hs Hk).
by rewrite utf8_decode_ascii by apply HL.
Qed.

Lemma decrypt_password_sealed {S} k w b (s : S) :
key_size_ok k = true ->
decrypt_password L (sealed_text L k w b) (Some k) s =
  (Return (utf8_decode b), s).
Proof.
intros Hk. unfold decrypt_password, sealed_text. mrun.
rewrite (b64_roundtrip L HL). by rewrite decrypt_sealed.
Qed.

(** *** The verifier file *)

Lemma derive_key_eq {S} pw salt (s : S) :
derive_key L pw salt s =
  match utf8_encode pw with
  | Some b => (Return (derived L salt b), s)
  | None => (Raise UnicodeError, s)
  end.
Proof. unfold derive_key. mrun. by destruct (utf8_encode pw). Qed.

Lemma derived_length salt b : length (derived L salt b) = KEY_SIZE.
Proof. apply HL. Qed.

Lemma get_master_key_eq pw w :
get_master_key L pw w =
  (Return (match files w !! "master.key", utf8_encode pw with
           | Some f, Some b => Some (derived L (take SALT_SIZE f) b)
           | _, _ => None
           end), w).
Proof.
unfold get_master_key, hash_password, open_rb. mrun.
destruct (files w !! "master.key") as [f|]; mrun; [|done].
rewrite derive_key_eq. by destruct (utf8_encode pw).
Qed.

Lemma get_master_key_size pw w k :
fst (get_master_key L pw w) = Return (Some k) -> key_size_ok k = true.
Proof.
rewrite get_master_key_eq. simpl.
destruct (files w !! "master.key"), (utf8_encode pw); intros [= <-].
apply key_size_32, derived_length.
Qed.

Lemma verify_master_password_eq pw w :
verify_master_password L pw w =
  (Return (match files w !! "master.key", utf8_encode pw with
           | Some f, Some b =>
               bool_decide (derived L (take SALT_SIZE f) b
                            = take KEY_SIZE (drop SALT_SIZE f))
           | _, _ => false
           end), w).
Proof.
unfold verify_master_password, hash_password, open_rb, compare_digest. mrun.
destruct (files w !! "master.key") as [f|]; mrun; [|done].
rewrite derive_key_eq. by destruct (utf8_encode pw).
Qed.

(** What a write that returns did, and what one that raises did. *)
Lemma write_return path data w u w' :
write path data w = (Return u, w') ->
files w' = <[path := default [] (files w !! path) ++ data]> (files w) /\
entropy w' = entropy w /\ today w' = today w /\
(write_budget w = None -> write_budget w' = None).
Proof.
unfold write. destruct (write_budget w) as [k|] eqn:E.
- destruct (decide _); [|done]. by intros [= _ <-].
- intros [= _ <-]. done.
Qed.

Lemma write_raise path data w e w' :
write path data w = (Raise e, w') ->
exists k, write_budget w = Some k /\ (k < length data)%nat /\
  files w' = <[path := default [] (files w !! path) ++ take k data]> (files w).
Proof.
unfold write. destruct (write_budget w) as [k|]; [|done].
destruct (decide _); [done|]. intros [= _ <-]. exists k. split; [done|].
split; [lia|done].
Qed.

Lemma write_unlimited path data w :
write_budget w = None ->
write path data w =
  (Return tt, set_files (<[path := default [] (files w !! path) ++ data]>) w).
Proof. intros H. unfold write. by rewrite H. Qed.

(** When [setup_master_password] returns [True], the verifier file holds
  the fresh salt and the key derived with it, and nothing else
  changed on disk. *)
Lemma setup_master_password_true pw w w' :
setup_master_password L pw w = (Return true, w') ->
exists b,
  utf8_encode pw = Some b /\
  files w' = <["master.key" :=
                tape_take SALT_SIZE w ++ derived L (tape_take SALT_SIZE w) b]>
               (files w) /\
  entropy w' = entropy (tape_drop SALT_SIZE w) /\
  today w' = today w /\
  (write_budget w = None -> write_budget w' = None).
Proof.
unfold setup_master_password, hash_password, generate_salt, urandom,
  open_wb. mrun.
rewrite derive_key_eq. destruct (utf8_encode pw) as [b|]; mrun; [|done].
destruct (write "master.key" (tape_take SALT_SIZE w) _)
  as [[[]|e1] w1] eqn:E1; mrun; [|done].
destruct (write "master.key" (derived L _ b) w1)
  as [[[]|e2] w2] eqn:E2; mrun; [|done].
intros [= <-]. exists b. split; [done|].
apply write_return in E1 as (F1 & N1 & T1 & B1).
apply write_return in E2 as (F2 & N2 & T2 & B2).
rewrite F2, N2, T2, F1, N1, T1. cbn [files set_files tape_drop set_entropy
  entropy today].
rewrite !lookup_insert_eq, !insert_insert_eq. cbn [default app].
repeat split; auto.
Qed.

(** With a device that does not fail and a password that encodes,
  [setup_master_password] returns [True]. *)
Lemma setup_master_password_ok pw b w :
utf8_encode pw = Some b -> write_budget w = None ->
exists w', setup_master_password L pw w = (Return true, w').
Proof.
intros Hb Hw.
unfold setup_master_password, hash_password, generate_salt, urandom,
  open_wb. mrun.
rewrite derive_key_eq, Hb. mrun.
rewrite write_unlimited by done. mrun.
rewrite write_unlimited by done. mrun. by eexists.
Qed.
End CryptoUtilsFacts.

(** ** The dict operations *)
Section Dict.
Implicit Types (d : dict) (k : str) (v : entry).

Lemma dict_in_true k d : dict_in k d = true <-> is_Some (dict_get k d).
Proof. unfold dict_in. apply bool_decide_eq_true. Qed.

Lemma dict_in_false k d : dict_in k d = false <-> dict_get k d = None.
Proof.
unfold dict_in. rewrite bool_decide_eq_false, <- eq_None_not_Some. done.
Qed.

Lemma dict_get_None k d : dict_get k d = None <-> k ∉ d.*1.
Proof.
induction d as [|[k' v'] d IH]; csimpl.
- split; [intros _; apply not_elem_of_nil | done].
- rewrite not_elem_of_cons. destruct (decide (k = k')) as [->|]; [|tauto].
  split; [done|]. by intros [? _].
Qed.

Lemma dict_get_set k v d : dict_get k (dict_set k v d) = Some v.
Proof.
induction d as [|[k' v'] d IH]; csimpl.
- by rewrite decide_True.
- destruct (decide (k = k')); csimpl; [by rewrite decide_True|].
  by rewrite decide_False.
Qed.

Lemma dict_get_set_ne k k' v d :
k ≠ k' -> dict_get k' (dict_set k v d) = dict_get k' d.
Proof.
intros Hne. induction d as [|[k0 v0] d IH]; csimpl.
- by rewrite decide_False.
- destruct (decide (k = k0)) as [->|]; csimpl.
  + by rewrite !decide_False.
  + by rewrite IH.
Qed.

Lemma dict_set_fresh k v d : k ∉ d.*1 -> dict_set k v d = d ++ [(k, v)].
Proof.
induction d as [|[k' v'] d IH]; csimpl; [done|].
rewrite not_elem_of_cons. intros [Hne Hd].
rewrite decide_False by done. by rewrite IH.
Qed.

Lemma dict_set_keys_in k v d : k ∈ d.*1 -> (dict_set k v d).*1 = d.*1.
Proof.
induction d as [|[k' v'] d IH]; csimpl.
- by intros ?%elem_of_nil.
- destruct (decide (k = k')) as [->|]; csimpl; [done|].
  rewrite elem_of_cons. intros [?|?]; [done|]. by rewrite IH.
Qed.

Lemma dict_set_is_dict k v d : is_dict d -> is_dict (dict_set k v d).
Proof.
unfold is_dict. intros H. destruct (decide (k ∈ d.*1)).
- by rewrite dict_set_keys_in.
- rewrite dict_set_fresh, fmap_app by done. csimpl.
  apply NoDup_app. split; [done|]. split; [|apply NoDup_singleton].
  intros x Hx ->%list_elem_of_singleton. done.
Qed.

Lemma dict_del_keys k d x : x ∈ (dict_del k d).*1 -> x ∈ d.*1.
Proof.
induction d as [|[k' v'] d IH]; csimpl; [done|].
destruct (decide (k = k')); csimpl; rewrite !elem_of_cons;
  [tauto | intros [?|?]; auto].
Qed.

Lemma dict_del_is_dict k d : is_dict d -> is_dict (dict_del k d).
Proof.
unfold is_dict. induction d as [|[k' v'] d IH]; csimpl; [done|].
rewrite NoDup_cons. intros [Hk Hd].
destruct (decide (k = k')); csimpl; [done|].
rewrite NoDup_cons. split; [|by apply IH].
intros ?%dict_del_keys. done.
Qed.

Lemma dict_get_del k d : is_dict d -> dict_get k (dict_del k d) = None.
Proof.
unfold is_dict. induction d as [|[k' v'] d IH]; csimpl; [done|].
rewrite NoDup_cons. intros [Hk Hd].
destruct (decide (k = k')) as [->|]; csimpl.
- by apply dict_get_None.
- rewrite decide_False by done. by apply IH.
Qed.

Lemma dict_get_del_ne k k' d :
k ≠ k' -> dict_get k' (dict_del k d) = dict_get k' d.
Proof.
intros Hne. induction d as [|[k0 v0] d IH]; csimpl; [done|].
destruct (decide (k = k0)) as [->|]; csimpl.
- by rewrite decide_False.
- by rewrite IH.
Qed.

Lemma dict_del_absent k d : dict_get k d = None -> dict_del k d = d.
Proof.
induction d as [|[k' v'] d IH]; csimpl; [done|].
destruct (decide (k = k')); [done|]. intros H. by rewrite IH.
Qed.

Lemma dict_get_elem k v d : dict_get k d = Some v -> (k, v) ∈ d.
Proof.
induction d as [|[k' v'] d IH]; csimpl; [done|].
destruct (decide (k = k')) as [->|].
- intros [= ->]. apply list_elem_of_here.
- intros H. apply list_elem_of_further. by apply IH.
Qed.

Lemma dict_get_key k v d : dict_get k d = Some v -> k ∈ d.*1.
Proof.
intros H%dict_get_elem. by apply (list_elem_of_fmap_2 fst) in H.
Qed.

Lemma Forall_dict_set (P : str * entry -> Prop) k v d :
Forall P d -> P (k, v) -> Forall P (dict_set k v d).
Proof.
intros Hd Hkv. induction Hd as [|[k' v'] d Hx Hd IH]; csimpl.
- by constructor.
- destruct (decide (k = k')); constructor; auto.
Qed.

Lemma Forall_dict_del (P : str * entry -> Prop) k d :
Forall P d -> Forall P (dict_del k d).
Proof.
induction 1 as [|[k' v'] d Hx Hd IH]; csimpl; [constructor|].
destruct (decide (k = k')); [done|]. by constructor.
Qed.
End Dict.

(** ** class PasswordManager *)
Section ManagerFacts.
Import Lib CryptoUtils Manager.
Context (L : Lib.t).

Implicit Types (o : PasswordManager) (w : World) (s : State).

Lemma call_eq {A} (m : M State A) o w r o' w' :
m {| self := o; world := w |} = (r, {| self := o'; world := w' |}) ->
call m o w = (r, o', w').
Proof. unfold call. by intros ->. Qed.

(** *** Loading the store *)

(** [_load_passwords] returns a dict whatever happens and changes
  nothing. *)
Lemma load_total s : exists d, _load_passwords L s = (Return d, s).
Proof.
destruct s as [o w]. unfold _load_passwords, path_exists, open_rb. mrun.
destruct (files w !! db_file o) as [c|] eqn:Hc.
- rewrite bool_decide_eq_true_2 by by eexists. cbn [negb]. mrun. rewrite Hc. mrun.
  destruct c as [|c0 c]; mrun; [by eexists|].
  destruct (utf8_decode (c0 :: c)) as [text|]; mrun; [|by eexists].
  destruct (decrypt_password_total L text (master_key o)
              {| self := o; world := w |}) as [r ->].
  mrun. destruct r as [[|j0 j]|]; mrun; [by eexists| |by eexists].
  destruct (json_loads L (j0 :: j)); mrun; by eexists.
- rewrite bool_decide_eq_false_2 by by intros [? [=]]. cbn [negb]. mrun.
  by eexists.
Qed.

Lemma load_absent o w :
files w !! db_file o = None ->
_load_passwords L {| self := o; world := w |}
= (Return [], {| self := o; world := w |}).
Proof.
intros Hc. unfold _load_passwords, path_exists. mrun.
rewrite Hc, bool_decide_eq_false_2 by by intros [? [=]]. done.
Qed.

Lemma load_empty o w :
files w !! db_file o = Some [] ->
_load_passwords L {| self := o; world := w |}
= (Return [], {| self := o; world := w |}).
Proof.
intros Hc. unfold _load_passwords, path_exists, open_rb. mrun.
rewrite Hc, bool_decide_eq_true_2 by by eexists.
cbn [negb]. mrun. rewrite Hc. mrun. done.
Qed.

Lemma load_undecryptable o w c :
files w !! db_file o = Some c ->
decryption_fails L c (master_key o) ->
_load_passwords L {| self := o; world := w |}
= (Return [], {| self := o; world := w |}).
Proof.
intros Hc Hf. unfold _load_passwords, path_exists, open_rb. mrun.
rewrite Hc, bool_decide_eq_true_2 by by eexists.
cbn [negb]. mrun. rewrite Hc. mrun. destruct c as [|c0 c]; mrun; [done|].
destruct (utf8_decode (c0 :: c)) as [text|] eqn:Ht; mrun; [|done].
rewrite decrypt_password_pure, (Hf text Ht). mrun. done.
Qed.

Lemma load_ok o w c text j d :
files w !! db_file o = Some c -> c ≠ [] ->
utf8_decode c = Some text ->
fst (decrypt_password L text (master_key o) tt) = Return (Some j) ->
j ≠ [] -> json_loads L j = Some d ->
_load_passwords L {| self := o; world := w |}
= (Return d, {| self := o; world := w |}).
Proof.
intros Hc Hne Ht Hd Hj Hl. unfold _load_passwords, path_exists, open_rb.
mrun. rewrite Hc, bool_decide_eq_true_2 by by eexists.
cbn [negb]. mrun. rewrite Hc. mrun. destruct c as [|c0 c]; [done|]. mrun.
rewrite Ht. mrun. rewrite decrypt_password_pure, Hd. mrun.
destruct j as [|j0 j]; [done|]. mrun. rewrite Hl. done.
Qed.

(** The constructor: the key from the verifier file, the dict from the
  store. *)
Lemma new_eq pw w k d :
fst (get_master_key L pw w) = Return k ->
fst (_load_passwords L
       {| self := {| master_key := k; db_file := "passwords.db";
                     passwords := [] |};
          world := w |}) = Return d ->
new L pw w =
  (Return {| master_key := k; db_file := "passwords.db"; passwords := d |}, w).
Proof.
intros Hk Hd. unfold new, __init__. mrun.
rewrite get_master_key_eq in *. cbn [fst] in Hk. injection Hk as Hk.
rewrite Hk. mrun. unfold set_master_key, set_db_file, set_passwords.
cbn [self world master_key db_file passwords].
destruct (load_total {| self := {| master_key := k; db_file := "passwords.db";
                     passwords := [] |}; world := w |}) as [d' Hd'].
rewrite Hd' in *. cbn [fst] in Hd. injection Hd as ->. done.
Qed.

Lemma new_total pw w : exists o, new L pw w = (Return o, w).
Proof.
pose proof (get_master_key_eq L pw w) as Hk.
match type of Hk with _ = (Return ?x, _) => set (k := x) in Hk end.
destruct (load_total {| self := {| master_key := k; db_file := "passwords.db";
                     passwords := [] |}; world := w |}) as [d Hd].
eexists. apply new_eq; [by rewrite Hk | by rewrite Hd].
Qed.

(** *** Saving the store *)
Context (HL : laws L).

Lemma json_bytes d : exists jb, utf8_encode (json_dumps L d) = Some jb.
Proof. apply utf8_encode_ascii_str, HL. Qed.

(** With a usable key, [_save_passwords] encrypts, truncates the store
  file and writes; what it returns is whether the write went through. *)
Lemma save_eq o w k :
master_key o = Some k -> key_size_ok k = true ->
_save_passwords L {| self := o; world := w |} =
  match write (db_file o) (stored L k w (passwords o))
          (set_files (<[db_file o := []]>) (tape_drop NONCE_SIZE w)) with
  | (Return _, w') => (Return true, {| self := o; world := w' |})
  | (Raise _, w') => (Return false, {| self := o; world := w' |})
  end.
Proof.
intros Hk Hs. unfold _save_passwords, open_wb. mrun. rewrite Hk.
destruct (json_bytes (passwords o)) as [jb Hjb].
rewrite (encrypt_password_str L HL _ _ _ _ Hjb Hs). mrun.
unfold sealed_text. rewrite utf8_encode_ascii by apply HL. mrun.
unfold stored. rewrite Hjb. change (default [] (Some jb)) with jb.
by destruct (write _ _ _) as [[[]|e] w'].
Qed.

(** Without one, nothing is opened or written. *)
Lemma save_no_key o w :
(master_key o = None \/
 exists k, master_key o = Some k /\ key_size_ok k = false) ->
_save_passwords L {| self := o; world := w |} =
  (Return false, {| self := o; world := tape_drop NONCE_SIZE w |}).
Proof.
intros Hk. unfold _save_passwords, encrypt_password, encrypt_data, AESGCM,
  urandom. mrun.
destruct (json_bytes (passwords o)) as [jb ->]. mrun.
destruct Hk as [->|(k & -> & ->)]; mrun; done.
Qed.

(** *** Adding and deleting *)

Lemma add_password_str o w k sv un p pb :
master_key o = Some k -> key_size_ok k = true ->
utf8_encode p = Some pb ->
add_password L sv un (DStr p) {| self := o; world := w |} =
  _save_passwords L
    {| self := {| master_key := master_key o; db_file := db_file o;
                  passwords :=
                    dict_set (password_id sv un)
                      {| service := sv; username := un;
                         password := sealed_text L k w pb;
                         date := today w |}
                      (passwords o) |};
       world := tape_drop NONCE_SIZE w |}.
Proof.
intros Hk Hs Hp. unfold add_password, now_ymd. mrun. rewrite Hk.
rewrite (encrypt_password_str L HL _ _ _ _ Hp Hs). mrun.
unfold set_passwords. mrun. rewrite ?Hk.
match goal with
| |- match ?m with _ => _ end = _ => destruct m as [[b|e] s] eqn:E
end; mrun; [done|].
exfalso. revert E. rewrite (save_eq _ _ k) by done.
by destruct (write _ _ _) as [[[]|e'] w'].
Qed.

Lemma delete_password_absent o w sv un :
dict_in (password_id sv un) (passwords o) = false ->
delete_password L sv un {| self := o; world := w |} =
  (Return false, {| self := o; world := w |}).
Proof. intros H. unfold delete_password. mrun. rewrite H. done. Qed.

Lemma delete_password_present o w k sv un :
master_key o = Some k -> key_size_ok k = true ->
dict_in (password_id sv un) (passwords o) = true ->
delete_password L sv un {| self := o; world := w |} =
  _save_passwords L
    {| self := {| master_key := master_key o; db_file := db_file o;
                  passwords := dict_del (password_id sv un) (passwords o) |};
       world := w |}.
Proof.
intros Hk Hs H. unfold delete_password. mrun. rewrite H. mrun.
unfold set_passwords. mrun. rewrite ?Hk.
match goal with
| |- match ?m with _ => _ end = _ => destruct m as [[b|e] s] eqn:E
end; mrun; [done|].
exfalso. revert E. rewrite (save_eq _ _ k) by done.
by destruct (write _ _ _) as [[[]|e'] w'].
Qed.

(** *** What was saved loads again *)

Lemma b64encode_nonempty x : x ≠ [] -> b64encode L x ≠ [].
Proof.
intros Hx He. pose proof (b64_roundtrip L HL x) as Hr.
rewrite He in Hr. cbn in Hr. rewrite (b64_empty L HL) in Hr.
by injection Hr as <-.
Qed.

Lemma stored_nonempty k w d : stored L k w d ≠ [].
Proof.
apply b64encode_nonempty. intros H%(f_equal length).
rewrite length_app, tape_take_length in H. done.
Qed.

Lemma load_stored o w k w0 d :
master_key o = Some k -> key_size_ok k = true -> is_dict d ->
files w !! db_file o = Some (stored L k w0 d) ->
_load_passwords L {| self := o; world := w |}
= (Return d, {| self := o; world := w |}).
Proof.
intros Hk Hs Hd Hf. destruct (json_bytes d) as [jb Hjb].
eapply load_ok; [done|apply stored_nonempty|..].
- apply utf8_decode_ascii, HL.
- rewrite Hk. unfold stored. rewrite Hjb. change (default [] (Some jb)) with jb.
  fold (sealed_text L k w0 jb).
  rewrite (decrypt_password_sealed L HL) by done.
  cbn [fst]. by rewrite (utf8_decode_encode _ _ Hjb).
- apply HL.
- by apply HL.
Qed.

(** The world after a save that went through. *)
Lemma save_unlimited o w k :
master_key o = Some k -> key_size_ok k = true -> write_budget w = None ->
_save_passwords L {| self := o; world := w |} =
  (Return true,
   {| self := o;
      world := set_files (<[db_file o := stored L k w (passwords o)]>)
                 (tape_drop NONCE_SIZE w) |}).
Proof.
intros Hk Hs Hw. rewrite (save_eq _ _ k) by done.
rewrite write_unlimited by done.
unfold set_files, tape_drop, set_entropy. cbn [files write_budget entropy today].
by rewrite lookup_insert_eq, insert_insert_eq.
Qed.

(** Every way [_save_passwords] can end, and the store file after it. *)
Lemma save_outcome o w :
exists r w',
  _save_passwords L {| self := o; world := w |}
  = (Return r, {| self := o; world := w' |}) /\
  match master_key o with
  | Some k =>
      if key_size_ok k then
        let data := stored L k w (passwords o) in
        match write_budget w with
        | Some n =>
            if decide (length data <= n)%nat
            then r = true /\ files w' = <[db_file o := data]> (files w)
            else r = false /\
                 files w' = <[db_file o := take n data]> (files w)
        | None => r = true /\ files w' = <[db_file o := data]> (files w)
        end
      else r = false /\ files w' = files w
  | None => r = false /\ files w' = files w
  end.
Proof.
destruct (master_key o) as [k|] eqn:Hk.
2: { eexists _, _. split; [apply save_no_key; by left|done]. }
destruct (key_size_ok k) eqn:Hs.
2: { eexists _, _. split; [apply save_no_key; right; by exists k|done]. }
rewrite (save_eq _ _ k) by done. unfold write.
cbn [write_budget set_files tape_drop set_entropy files].
rewrite lookup_insert_eq. cbn [default app].
destruct (write_budget w) as [n|].
- destruct (decide _); eexists _, _; (split; [reflexivity|]);
    cbn [files set_write_budget set_files tape_drop set_entropy];
    by rewrite insert_insert_eq.
- eexists _, _. split; [reflexivity|].
  cbn [files set_files tape_drop set_entropy]. by rewrite insert_insert_eq.
Qed.

Lemma add_password_ok o w k sv un p pb :
master_key o = Some k -> key_size_ok k = true ->
utf8_encode p = Some pb -> write_budget w = None ->
let d := dict_set (password_id sv un)
           {| service := sv; username := un;
              password := sealed_text L k w pb; date := today w |}
           (passwords o) in
add_password L sv un (DStr p) {| self := o; world := w |} =
  (Return true,
   {| self := {| master_key := master_key o; db_file := db_file o;
                 passwords := d |};
      world := set_files
                 (<[db_file o := stored L k (tape_drop NONCE_SIZE w) d]>)
                 (tape_drop NONCE_SIZE (tape_drop NONCE_SIZE w)) |}).
Proof.
intros Hk Hs Hp Hw d. rewrite (add_password_str _ _ k _ _ _ pb) by done.
by rewrite (save_unlimited _ _ k).
Qed.

Lemma get_password_eq o w sv un :
get_password L sv un {| self := o; world := w |} =
  (Return
     match dict_get (password_id sv un) (passwords o) with
     | Some e =>
         match fst (decrypt_password L (password e) (master_key o) tt) with
         | Return p => Some (service e, username e, p, date e)
         | Raise _ => None
         end
     | None => None
     end,
   {| self := o; world := w |}).
Proof.
unfold get_password, decrypted_row. mrun.
destruct (dict_get _ _) as [e|]; mrun; [|done].
rewrite decrypt_password_pure.
destruct (decrypt_password_total L (password e) (master_key o) tt) as [r ->].
done.
Qed.

(** *** The dict stays in order *)

Lemma sound_empty k : sound L k [].
Proof. repeat split; constructor. Qed.

Lemma sound_add k w sv un pb p d :
key_size_ok k = true -> utf8_decode pb = Some p -> sound L k d ->
sound L k
  (dict_set (password_id sv un)
     {| service := sv; username := un;
        password := sealed_text L k w pb; date := today w |} d).
Proof.
intros Hs Hp (Hd & Hk & Hr). repeat split.
- by apply dict_set_is_dict.
- by apply Forall_dict_set.
- apply Forall_dict_set; [done|]. exists p. unfold reads. cbn [snd password].
  rewrite (decrypt_password_sealed L HL) by done. cbn [fst]. by rewrite Hp.
Qed.

Lemma sound_del k id d : sound L k d -> sound L k (dict_del id d).
Proof.
intros (Hd & Hk & Hr). repeat split.
- by apply dict_del_is_dict.
- by apply Forall_dict_del.
- by apply Forall_dict_del.
Qed.

(** *** Changing the master password *)

Lemma get_all_passwords_eq o w :
get_all_passwords L {| self := o; world := w |} =
  (Return ((fun kv => row_of L (master_key o) kv.2) <$> passwords o),
   {| self := o; world := w |}).
Proof.
unfold get_all_passwords. mrun.
assert (forall d s, for_append d
          (fun item : str * entry => decrypted_row L (master_key o) item.2) s
        = (Return ((fun kv => row_of L (master_key o) kv.2) <$> d), s)) as Hfa;
  [|by rewrite Hfa].
induction d as [|[id e] d IH]; intros s; [done|].
cbn [for_append fmap list_fmap]. unfold Py.bind at 1.
unfold decrypted_row at 1. mrun. rewrite decrypt_password_pure.
destruct (decrypt_password_total L (password e) (master_key o) tt) as [r Hr].
cbn [snd]. rewrite Hr. mrun. unfold Py.bind. rewrite IH.
unfold row_of. by rewrite Hr.
Qed.

Lemma setup_master_password_unlimited pw b w :
utf8_encode pw = Some b -> write_budget w = None ->
setup_master_password L pw w =
  (Return true,
   set_files (<["master.key" :=
                 tape_take SALT_SIZE w
                 ++ derived L (tape_take SALT_SIZE w) b]>)
     (tape_drop SALT_SIZE w)).
Proof.
intros Hb Hw.
unfold setup_master_password, hash_password, generate_salt, urandom,
  open_wb. mrun.
rewrite derive_key_eq, Hb. mrun.
rewrite write_unlimited by done. mrun.
rewrite write_unlimited by done. mrun.
unfold set_files, tape_drop, set_entropy.
cbn [files write_budget entropy today].
rewrite !lookup_insert_eq, !insert_insert_eq. done.
Qed.

(** A password that was read is text that encodes. *)
Lemma reads_encodes key e p : reads L key e p -> is_Some (utf8_encode p).
Proof.
unfold reads, decrypt_password. mrun.
destruct (b64decode L (password e)) as [b|]; mrun; [|done].
destruct (decrypt_data L b key tt) as [[r|x] []] eqn:E; mrun; [|done].
intros [= ->]. apply decrypt_data_some in E as (k & pt & _ & _ & Hp).
exists pt. by apply utf8_encode_decode.
Qed.

(** The loop of [change_master_password]: the records are added again
  one by one under the new key, each add rewriting the store. *)
Lemma readd_all k nk db d : forall acc w,
key_size_ok nk = true -> write_budget w = None ->
NoDup (acc.*1 ++ d.*1) -> keyed d ->
Forall (fun kv => exists p, reads L (Some k) kv.2 p) d ->
exists d' w',
  for_each ((fun kv => row_of L (Some k) kv.2) <$> d)
    (fun '(service, username, password, _) =>
       add_password L service username (password_arg password);;
       mret tt)
    {| self := {| master_key := Some nk; db_file := db; passwords := acc |};
       world := w |}
  = (Return tt,
     {| self := {| master_key := Some nk; db_file := db;
                   passwords := acc ++ d' |};
        world := w' |}) /\
  Forall2 (rekeyed L k nk) d d' /\
  write_budget w' = None /\
  (forall path, path ≠ db -> files w' !! path = files w !! path) /\
  (d ≠ [] -> exists w'', files w' !! db = Some (stored L nk w'' (acc ++ d'))).
Proof.
induction d as [|[id e] d IH]; intros acc w Hs Hw Hnd Hkd Hrd.
{ exists [], w. rewrite app_nil_r. by repeat split. }
apply Forall_cons in Hkd as [Hid Hkd]. apply Forall_cons in Hrd as [[p Hp] Hrd].
cbn [fst snd] in Hid, Hp.
destruct (reads_encodes _ _ _ Hp) as [pb Hpb].
set (e' := {| service := service e; username := username e;
              password := sealed_text L nk w pb; date := today w |}).
set (w1 := set_files
      (<[db := stored L nk (tape_drop NONCE_SIZE w) (acc ++ [(id, e')])]>)
      (tape_drop NONCE_SIZE (tape_drop NONCE_SIZE w))).
assert (id ∉ acc.*1) as Hfresh.
{ intros Hin. csimpl in Hnd. apply NoDup_app in Hnd as (_ & Hd & _).
  apply (Hd id Hin). apply list_elem_of_here. }
destruct (IH (acc ++ [(id, e')]) w1) as (d' & w' & Hrun & HR & Hw' & Hf & Hdb);
  [done|done| |done|done|].
{ rewrite fmap_app. csimpl. by rewrite <- app_assoc. }
exists ((id, e') :: d'), w'.
split; [|split; [|split; [|split]]].
- cbn [fmap list_fmap for_each]. unfold Py.bind at 1.
  unfold row_of at 1. rewrite Hp. cbn [password_arg]. mrun.
  rewrite (add_password_ok _ _ nk _ _ p pb) by done.
  cbn [master_key db_file passwords]. mrun.
  rewrite <- Hid, dict_set_fresh by done.
  fold e'. fold w1. change (list_fmap _ _ ?f ?l) with (f <$> l).
  rewrite Hrun. by rewrite <- app_assoc.
- constructor; [|done]. repeat split; cbn [fst snd]; [done..|].
  intros p' Hp'. unfold reads in *. rewrite Hp in Hp'. injection Hp' as <-.
  cbn [password e']. rewrite (decrypt_password_sealed L HL) by done.
  cbn [fst]. by rewrite (utf8_decode_encode _ _ Hpb).
- done.
- intros path Hpath. rewrite Hf by done. unfold w1, set_files. cbn [files].
  rewrite lookup_insert_ne by done. done.
- intros _. destruct d as [|x d].
  + inversion HR; subst. revert Hrun. cbn [fmap list_fmap for_each].
    rewrite app_nil_r. intros [= <-]. eexists. unfold w1, set_files.
    cbn [files]. by rewrite lookup_insert_eq.
  + destruct Hdb as [w'' Hw'']; [done|]. exists w''.
    by rewrite <- app_assoc in Hw''.
Qed.

Lemma rekeyed_keys k nk d d' :
Forall2 (rekeyed L k nk) d d' -> d'.*1 = d.*1.
Proof.
induction 1 as [|x y d d' (Hxy & _) _ IH]; csimpl; [done|].
by rewrite Hxy, IH.
Qed.

Lemma rekeyed_lookup k nk d d' id e :
Forall2 (rekeyed L k nk) d d' -> is_dict d -> (id, e) ∈ d ->
exists e', dict_get id d' = Some e' /\ rekeyed L k nk (id, e) (id, e').
Proof.
unfold is_dict.
induction 1 as [|[x ex] [y ey] d d' Hxy _ IH]; csimpl; intros Hnd Hin.
{ by apply elem_of_nil in Hin. }
apply NoDup_cons in Hnd as [Hx Hnd].
pose proof Hxy as (Hk & _). cbn [fst] in Hk. subst y.
apply elem_of_cons in Hin as [[= -> ->]|Hin].
- exists ey. by rewrite decide_True.
- rewrite decide_False; [by apply IH|].
  intros ->. apply Hx. by apply (list_elem_of_fmap_2 fst) in Hin.
Qed.

(** [change_master_password] on an instance whose records all read under
  its key, with a device that does not fail. *)
Lemma change_master_password_run o w k npw nb :
master_key o = Some k -> sound L k (passwords o) ->
write_budget w = None -> utf8_encode npw = Some nb ->
db_file o = "passwords.db" ->
let salt := tape_take SALT_SIZE w in
let nk := derived L salt nb in
exists d' w',
  change_master_password L npw {| self := o; world := w |}
  = (Return true,
     {| self := {| master_key := Some nk; db_file := "passwords.db";
                   passwords := d' |};
        world := w' |}) /\
  Forall2 (rekeyed L k nk) (passwords o) d' /\
  write_budget w' = None /\
  files w' !! "master.key" = Some (salt ++ nk) /\
  (passwords o ≠ [] ->
   exists w'', files w' !! "passwords.db" = Some (stored L nk w'' d')).
Proof.
intros Hk (Hd & Hkd & Hrd) Hw Hnb Hdb salt nk.
assert (key_size_ok nk = true) as Hs by apply key_size_32, derived_length, HL.
set (w1 := set_files (<["master.key" := salt ++ nk]>) (tape_drop SALT_SIZE w)).
destruct (readd_all k nk "passwords.db" (passwords o) [] w1)
  as (d' & w' & Hrun & HR & Hw' & Hf & Hst); [done..|].
exists d', w'. split; [|split; [done|split; [done|split; [|done]]]].
- unfold change_master_password. mrun. rewrite get_all_passwords_eq. mrun.
  rewrite (setup_master_password_unlimited _ nb) by done. mrun.
  fold salt. fold nk. fold w1. rewrite get_master_key_eq.
  replace (files w1 !! "master.key") with (Some (salt ++ nk))
    by (unfold w1, set_files; cbn [files]; by rewrite lookup_insert_eq).
  rewrite Hnb, take_app_length' by (symmetry; apply tape_take_length).
  fold nk. unfold set_master_key, set_passwords. mrun.
  cbn [master_key db_file passwords]. rewrite Hk, Hdb.
  change (list_fmap _ _ ?f ?l) with (f <$> l) in Hrun.
  rewrite Hrun. done.
- rewrite Hf by done. unfold w1, set_files. cbn [files].
  by rewrite lookup_insert_eq.
Qed.
End ManagerFacts.

(** * The claims *)
Section Claims.
Import Lib CryptoUtils Manager.

(** ** Opening the vault *)

(** C1, as the code has it: when the store file does not decrypt under the
  key of the session (a wrong key, a corrupted file), the constructor
  does not raise: the instance it returns has an empty record set, and
  the world is as it was. *)
Theorem new_masks_decryption_failure (L : Lib.t) pw w k c :
fst (get_master_key L pw w) = Return k ->
files w !! "passwords.db" = Some c ->
decryption_fails L c k ->
new L pw w =
  (Return {| master_key := k; db_file := "passwords.db"; passwords := [] |},
   w).
Proof.
intros Hk Hc Hf. apply new_eq; [done|].
by rewrite (load_undecryptable L _ w c).
Qed.

(** C8: with no store file, or an empty one, the constructor returns an
  instance with no records and raises nothing. *)
Theorem new_without_store (L : Lib.t) pw w :
files w !! "passwords.db" = None \/ files w !! "passwords.db" = Some [] ->
exists k,
  new L pw w =
    (Return {| master_key := k; db_file := "passwords.db"; passwords := [] |},
     w).
Proof.
intros Hc. pose proof (get_master_key_eq L pw w) as Hk.
match type of Hk with _ = (Return ?x, _) => exists x end.
apply new_eq; [by rewrite Hk|].
destruct Hc as [Hc|Hc]; [by rewrite load_absent | by rewrite load_empty].
Qed.

(** ** Deleting *)

(** C10: deleting a pair that is not stored returns [False] and leaves the
  instance and the world, the store file included, as they were. *)
Theorem delete_password_absent_unchanged (L : Lib.t) o w sv un :
dict_in (password_id sv un) (passwords o) = false ->
call (delete_password L sv un) o w = (Return false, o, w).
Proof.
intros H. by apply call_eq, delete_password_absent.
Qed.

(** C9: on an instance with its key and a device that takes the write,
  deleting a stored pair returns [True], the dict loses the record and
  the store file then loads as the remaining dict; deleting the pair
  again returns [False]; deleting a pair that is not stored returns
  [False]. *)
Theorem delete_password_spec (L : Lib.t) (HL : laws L) o w k sv un :
ready o k -> is_dict (passwords o) -> write_budget w = None ->
let id := password_id sv un in
if dict_in id (passwords o)
then exists o' w',
       call (delete_password L sv un) o w = (Return true, o', w') /\
       passwords o' = dict_del id (passwords o) /\
       call (_load_passwords L) o' w' = (Return (passwords o'), o', w') /\
       call (delete_password L sv un) o' w' = (Return false, o', w')
else call (delete_password L sv un) o w = (Return false, o, w).
Proof.
intros (Hk & Hlen & Hdb) Hd Hw id.
pose proof (key_size_32 _ Hlen) as Hs.
destruct (dict_in id (passwords o)) eqn:Hin.
- eexists _, _. split.
  { apply call_eq. rewrite (delete_password_present L HL o w k) by done.
    by apply save_unlimited. }
  cbn [self world passwords master_key db_file].
  split; [done|]. split.
  + apply call_eq.
    apply (load_stored L HL _ _ k w); cbn [master_key passwords db_file];
      [done|done|by apply dict_del_is_dict|].
    unfold set_files. cbn [files]. by rewrite lookup_insert_eq.
  + apply call_eq. apply delete_password_absent. cbn [passwords].
    by apply dict_in_false, dict_get_del.
- by apply call_eq, delete_password_absent.
Qed.

(** ** The cipher pair *)

(** C2, as the code has it: under a 32-byte key, text that encodes to
  UTF-8 comes back from [decrypt_data] as the same text; a byte string
  comes back as its UTF-8 decoding (a [str]), or as [None] when it has
  none; text that does not encode and [None] make [encrypt_data]
  raise. *)
Theorem encrypt_decrypt_roundtrip (L : Lib.t) (HL : laws L) (P : pydata) K w :
length K = KEY_SIZE ->
match P with
| DStr s =>
    match utf8_encode s with
    | Some _ =>
        exists blob w',
          encrypt_data L P (Some K) w = (Return blob, w') /\
          decrypt_data L blob (Some K) w' = (Return (Some s), w')
    | None => encrypt_data L P (Some K) w = (Raise UnicodeError, w)
    end
| DBytes b =>
    exists blob w',
      encrypt_data L P (Some K) w = (Return blob, w') /\
      decrypt_data L blob (Some K) w' = (Return (utf8_decode b), w')
| DNone => exists e w', encrypt_data L P (Some K) w = (Raise e, w')
end.
Proof.
intros HK%key_size_32. destruct P as [s|b|].
- destruct (utf8_encode s) as [b|] eqn:Hs.
  + eexists _, _. split; [by apply encrypt_data_str|].
    rewrite (decrypt_sealed L HL) by done.
    by rewrite (utf8_decode_encode _ _ Hs).
  + unfold encrypt_data. mrun. by rewrite Hs.
- eexists _, _. split; [by apply encrypt_data_bytes|].
  by apply decrypt_sealed.
- destruct (encrypt_data_none L (Some K) w) as [e He]. by eexists _, _.
Qed.

(** C3, as the code has it: when the tag of the blob does not verify
  under the key, [decrypt_data] returns [None] to its caller: it raises
  nothing and hands out no plaintext. *)
Theorem decrypt_data_tag_mismatch (L : Lib.t) blob k {S} (s : S) :
aesgcm_decrypt L k (take NONCE_SIZE blob) (drop NONCE_SIZE blob) = None ->
decrypt_data L blob (Some k) s = (Return None, s).
Proof.
intros H. unfold decrypt_data, AESGCM, AESGCM_decrypt. mrun.
destruct (key_size_ok k); mrun; [|done].
destruct (nonce_size_ok _); mrun; [|done].
rewrite H. done.
Qed.

(** ** The master password *)

(** C4, as the code has it: after a [setup_master_password] that returned
  [True], verifying the same password returns [True]; a candidate whose
  derived key differs from the stored one gets [False]; and so does
  every candidate when the verifier file is missing: no call raises. *)
Theorem verify_master_password_spec (L : Lib.t) (HL : laws L) p w w' :
setup_master_password L p w = (Return true, w') ->
verify_master_password L p w' = (Return true, w') /\
(forall q w0 f bq,
   files w0 !! "master.key" = Some f -> utf8_encode q = Some bq ->
   derived L (take SALT_SIZE f) bq ≠ take KEY_SIZE (drop SALT_SIZE f) ->
   verify_master_password L q w0 = (Return false, w0)) /\
(forall q w0,
   files w0 !! "master.key" = None ->
   verify_master_password L q w0 = (Return false, w0)) /\
(forall q w0, exists r, verify_master_password L q w0 = (Return r, w0)).
Proof.
intros (b & Hb & Hf & _)%setup_master_password_true.
repeat split.
- rewrite verify_master_password_eq, Hf, lookup_insert_eq, Hb.
  rewrite take_app_length', drop_app_length'
    by by rewrite tape_take_length.
  rewrite take_ge by by rewrite derived_length.
  by rewrite bool_decide_eq_true_2.
- intros q w0 f bq Hf0 Hq Hne.
  rewrite verify_master_password_eq, Hf0, Hq.
  by rewrite bool_decide_eq_false_2.
- intros q w0 Hf0. by rewrite verify_master_password_eq, Hf0.
- intros q w0. rewrite verify_master_password_eq. by eexists.
Qed.

(** ** Record identity *)

(** C5 at the failing input: the pairs ("a_b", "c") and ("a", "b_c") get
  the same id, so adding the second replaces the first, and asking for
  ("a_b", "c") hands out the record of ("a", "b_c"). *)
Theorem add_password_id_collision (L : Lib.t) (HL : laws L) o w k p1 p2 b1 b2 :
ready o k -> write_budget w = None ->
utf8_encode p1 = Some b1 -> utf8_encode p2 = Some b2 ->
exists o1 w1 o2 w2,
  call (add_password L (lit "a_b") (lit "c") (DStr p1)) o w
  = (Return true, o1, w1) /\
  call (add_password L (lit "a") (lit "b_c") (DStr p2)) o1 w1
  = (Return true, o2, w2) /\
  length (passwords o2) = length (passwords o1) /\
  call (get_password L (lit "a_b") (lit "c")) o2 w2
  = (Return (Some (lit "a", lit "b_c", Some p2, today w)), o2, w2).
Proof.
intros (Hk & Hlen%key_size_32 & Hdb) Hw Hp1 Hp2.
eexists _, _, _, _. split; [|split; [|split]].
- apply call_eq. by apply (add_password_ok L HL o w k _ _ p1 b1).
- apply call_eq. by apply (add_password_ok L HL _ _ k _ _ p2 b2).
- cbn [passwords].
  change (password_id (lit "a") (lit "b_c"))
    with (password_id (lit "a_b") (lit "c")).
  rewrite <- !(length_fmap fst).
  by rewrite (dict_set_keys_in _ _ (dict_set _ _ _))
    by (eapply dict_get_key, dict_get_set).
- apply call_eq. rewrite get_password_eq. cbn [passwords master_key].
  change (password_id (lit "a") (lit "b_c"))
    with (password_id (lit "a_b") (lit "c")).
  rewrite dict_get_set. cbn [password service username date].
  rewrite Hk, (decrypt_password_sealed L HL) by done.
  cbn [fst]. by rewrite (utf8_decode_encode _ _ Hp2).
Qed.

(** ** Persisting *)

(** C6, as the code has it: [_save_passwords] never raises and writes the
  store file in place.  When encrypting fails (no usable key) it
  returns [False] and the files are as they were; otherwise the file
  is truncated and written: it holds the new content and [True] is
  returned, or, when the device stops after [n] bytes, it holds the
  first [n] bytes of the new content and [False] is returned. *)
Theorem save_passwords_in_place (L : Lib.t) (HL : laws L) o w :
db_file o = "passwords.db" ->
exists r w',
  call (_save_passwords L) o w = (Return r, o, w') /\
  match master_key o with
  | Some k =>
      if key_size_ok k then
        let data := stored L k w (passwords o) in
        match write_budget w with
        | Some n =>
            if decide (length data <= n)%nat
            then r = true /\ files w' = <["passwords.db" := data]> (files w)
            else r = false /\
                 files w' = <["passwords.db" := take n data]> (files w)
        | None => r = true /\ files w' = <["passwords.db" := data]> (files w)
        end
      else r = false /\ files w' = files w
  | None => r = false /\ files w' = files w
  end.
Proof.
intros Hdb. destruct (save_outcome L HL o w) as (r & w' & Hr & H).
exists r, w'. split; [by apply call_eq|]. by rewrite Hdb in H.
Qed.

(** ** Changing the master password *)

(** C7: take an instance with its key and a dict in order (the records
  were added by [add_password] and read under the key), a device that
  does not fail and a new password that encodes.  Then
  [change_master_password] returns [True]; opening the vault with the
  new password afterwards gives as many records, and each record of
  before is there under its id with its service, its user name and a
  password that reads as it did; and a password whose derived key
  differs from the new one no longer verifies. *)
Theorem change_master_password_preserves (L : Lib.t) (HL : laws L)
  o w k old npw nb :
ready o k -> sound L k (passwords o) ->
write_budget w = None -> utf8_encode npw = Some nb ->
(forall ob, utf8_encode old = Some ob ->
   derived L (tape_take SALT_SIZE w) ob
   ≠ derived L (tape_take SALT_SIZE w) nb) ->
exists o' w' o'',
  call (change_master_password L npw) o w = (Return true, o', w') /\
  new L npw w' = (Return o'', w') /\
  (passwords o ≠ [] -> length (passwords o'') = length (passwords o)) /\
  (forall id e p,
     (id, e) ∈ passwords o -> reads L (Some k) e p ->
     exists e',
       dict_get id (passwords o'') = Some e' /\
       service e' = service e /\ username e' = username e /\
       reads L (master_key o'') e' p) /\
  verify_master_password L old w' = (Return false, w').
Proof.
intros (Hk & Hlen & Hdb) Hsound Hw Hnb Hold.
pose proof Hsound as (Hd & Hkd & Hrd).
destruct (change_master_password_run L HL o w k npw nb)
  as (d' & w' & Hrun & HR & Hw' & Hmk & Hst); [done..|].
set (salt := tape_take SALT_SIZE w) in *.
set (nk := derived L salt nb) in *.
assert (key_size_ok nk = true) as Hs by apply key_size_32, derived_length, HL.
assert (fst (get_master_key L npw w') = Return (Some nk)) as Hkey.
{ rewrite get_master_key_eq, Hmk, Hnb. cbn [fst].
  by rewrite take_app_length' by (symmetry; apply tape_take_length). }
assert (exists d'', new L npw w' =
          (Return {| master_key := Some nk; db_file := "passwords.db";
                     passwords := d'' |}, w') /\
          (passwords o ≠ [] -> d'' = d')) as (d'' & Hnew & Hd'').
{ destruct (load_total L
      {| self := {| master_key := Some nk; db_file := "passwords.db";
                    passwords := [] |}; world := w' |}) as [d'' Hl].
  exists d''. split; [apply new_eq; [done|by rewrite Hl]|].
  intros Hne. destruct (Hst Hne) as [w'' Hw''].
  rewrite (load_stored L HL _ _ nk w'' d') in Hl; try done.
  - by injection Hl.
  - unfold is_dict. by rewrite (rekeyed_keys L k nk _ _ HR). }
eexists _, w', _. split; [by apply call_eq|]. split; [exact Hnew|].
cbn [passwords master_key]. split; [|split].
- intros Hne. rewrite (Hd'' Hne). symmetry. by eapply Forall2_length.
- intros id e p Hin Hp.
  assert (passwords o ≠ []) as Hne by (intros E; rewrite E in Hin; inversion Hin).
  rewrite (Hd'' Hne).
  destruct (rekeyed_lookup L k nk _ _ id e HR Hd Hin) as (e' & He' & _ & ? & ? & Hr).
  exists e'. repeat split; [done..|]. by apply Hr.
- rewrite verify_master_password_eq, Hmk.
  destruct (utf8_encode old) as [ob|] eqn:Hob; [|done].
  rewrite take_app_length', drop_app_length'
    by (symmetry; apply tape_take_length).
  rewrite take_ge by (unfold nk; by rewrite derived_length).
  rewrite bool_decide_eq_false_2; [done|]. by apply Hold.
Qed.
End Claims.

(** * The claims on a concrete session *)
Section Session.
Import Lib CryptoUtils Manager.

Lemma session_setup :
setup_master_password Model.lib Model.master Model.fresh
= (Return true, Model.after_setup).
Proof.
destruct (setup_master_password_ok Model.lib Model.master _ Model.fresh
            eq_refl eq_refl) as [w' Hw'].
unfold Model.after_setup. by rewrite Hw'.
Qed.

Lemma session_ready : ready Model.owner Model.key.
Proof. repeat split; vm_compute; reflexivity. Qed.

Lemma session_is_dict : is_dict (passwords Model.owner).
Proof. unfold is_dict. compute_done. Qed.

Lemma session_keyed : keyed (passwords Model.owner).
Proof. unfold keyed. compute_done. Qed.

Lemma session_reads :
Forall (fun kv => exists p, reads Model.lib (Some Model.key) kv.2 p)
  (passwords Model.owner).
Proof.
assert (passwords Model.owner <> [] /\
        Forall (fun kv => reads Model.lib (Some Model.key) kv.2 (lit "secret123"))
          (passwords Model.owner)) as [_ H].
{ split; [compute_done|]. unfold reads. compute_done. }
eapply Forall_impl; [exact H|]. intros kv Hkv. eexists. exact Hkv.
Qed.

Lemma session_store :
files Model.vault !! "passwords.db" = Some Model.store /\ Model.store <> [].
Proof. split; compute_done. Qed.

Lemma session_guess_key :
fst (get_master_key Model.lib Model.guess Model.vault)
= Return (Model.key_of Model.guess Model.vault).
Proof. vm_compute. reflexivity. Qed.

Lemma session_guess_fails :
decryption_fails Model.lib Model.store (Model.key_of Model.guess Model.vault).
Proof.
intros text Ht.
assert (utf8_decode Model.store = Some (Byte.to_N <$> Model.store)) as Hd
  by (vm_compute; reflexivity).
rewrite Hd in Ht. apply (inj Some) in Ht. subst text. vm_compute. reflexivity.
Qed.

(** ** C1 *)

Lemma new_masks_decryption_failure_witness :
fst (get_master_key Model.lib Model.guess Model.vault)
= Return (Model.key_of Model.guess Model.vault) /\
files Model.vault !! "passwords.db" = Some Model.store /\
decryption_fails Model.lib Model.store (Model.key_of Model.guess Model.vault) /\
new Model.lib Model.guess Model.vault =
  (Return {| master_key := Model.key_of Model.guess Model.vault;
             db_file := "passwords.db"; passwords := [] |},
   Model.vault).
Proof.
split; [apply session_guess_key|]. split; [apply session_store|].
split; [apply session_guess_fails|].
apply (new_masks_decryption_failure Model.lib _ _ _ Model.store);
  [apply session_guess_key | apply session_store | apply session_guess_fails].
Defined.

(** The claim asks for an error when the store does not decrypt.  The
  store of the session holds one record; opened with another password
  it does not decrypt, and the constructor returns an instance with no
  record. *)
Lemma new_wrong_key_counterexample :
files Model.vault !! "passwords.db" = Some Model.store /\
length (passwords (Model.opened Model.master Model.vault)) = 1%nat /\
decryption_fails Model.lib Model.store (Model.key_of Model.guess Model.vault) /\
exists o,
  new Model.lib Model.guess Model.vault = (Return o, Model.vault) /\
  passwords o = [].
Proof.
split; [apply session_store|]. split; [compute_done|].
split; [apply session_guess_fails|].
exists {| master_key := Model.key_of Model.guess Model.vault;
          db_file := "passwords.db"; passwords := [] |}.
split; [|reflexivity].
apply new_eq; [apply session_guess_key|].
rewrite (load_undecryptable Model.lib _ _ Model.store);
  [done | apply session_store | apply session_guess_fails].
Qed.

(** ** C2 *)

Lemma encrypt_decrypt_roundtrip_witness :
length Model.key1 = KEY_SIZE /\
exists blob w',
  encrypt_data Model.lib (DStr (lit "secret123")) (Some Model.key1) Model.fresh
  = (Return blob, w') /\
  decrypt_data Model.lib blob (Some Model.key1) w'
  = (Return (Some (lit "secret123")), w').
Proof.
split; [reflexivity|].
exact (encrypt_decrypt_roundtrip Model.lib lib_laws
         (DStr (lit "secret123")) Model.key1 Model.fresh eq_refl).
Defined.

(** The claim asks for the plaintext back.  The byte string [b'\xff'],
  encrypted under a 32-byte key, comes back as [None]. *)
Lemma encrypt_decrypt_bytes_counterexample :
length Model.key1 = KEY_SIZE /\
exists blob w',
  encrypt_data Model.lib (DBytes [xff]) (Some Model.key1) Model.fresh
  = (Return blob, w') /\
  decrypt_data Model.lib blob (Some Model.key1) w' = (Return None, w').
Proof.
split; [reflexivity|]. eexists _, _.
split; [by apply encrypt_data_bytes|].
by rewrite (decrypt_sealed Model.lib lib_laws).
Qed.

(** ** C3 *)

Lemma decrypt_data_tag_mismatch_witness :
aesgcm_decrypt Model.lib Model.key2
  (take NONCE_SIZE Model.blob) (drop NONCE_SIZE Model.blob) = None /\
decrypt_data Model.lib Model.blob (Some Model.key2) tt = (Return None, tt).
Proof.
assert (aesgcm_decrypt Model.lib Model.key2
          (take NONCE_SIZE Model.blob) (drop NONCE_SIZE Model.blob) = None)
  as H by (vm_compute; reflexivity).
split; [exact H|]. exact (decrypt_data_tag_mismatch Model.lib _ _ tt H).
Defined.

(** The claim asks for an error raised to the caller.  The blob decrypts
  under its key; with one bit flipped its tag no longer verifies, and
  [decrypt_data] returns [None]. *)
Lemma decrypt_tampered_counterexample :
decrypt_data Model.lib Model.blob (Some Model.key1) tt
= (Return (Some (lit "secret123")), tt) /\
aesgcm_decrypt Model.lib Model.key1
  (take NONCE_SIZE Model.tampered) (drop NONCE_SIZE Model.tampered) = None /\
decrypt_data Model.lib Model.tampered (Some Model.key1) tt = (Return None, tt).
Proof. repeat split; vm_compute; reflexivity. Qed.

(** ** C4 *)

Lemma verify_master_password_spec_witness :
setup_master_password Model.lib Model.master Model.fresh
= (Return true, Model.after_setup) /\
verify_master_password Model.lib Model.master Model.after_setup
= (Return true, Model.after_setup) /\
verify_master_password Model.lib (lit "wrong") Model.after_setup
= (Return false, Model.after_setup).
Proof.
split; [apply session_setup|].
destruct (verify_master_password_spec Model.lib lib_laws _ _ _ session_setup)
  as (H1 & H2 & _).
split; [exact H1|].
apply (H2 (lit "wrong") Model.after_setup Model.verifier
         (default [] (utf8_encode (lit "wrong")))); compute_done.
Defined.

(** The claim asks for a storage error when the verifier file is
  missing.  On a first run there is none, and verifying returns
  [False]. *)
Lemma verify_missing_file_counterexample :
files Model.fresh !! "master.key" = None /\
verify_master_password Model.lib Model.master Model.fresh
= (Return false, Model.fresh).
Proof. split; [reflexivity|]. by rewrite verify_master_password_eq. Qed.

(** ** C5 *)

Lemma session_newcomer_ready : ready Model.newcomer Model.key.
Proof. repeat split; vm_compute; reflexivity. Qed.

Lemma add_password_id_collision_witness :
ready Model.newcomer Model.key /\
write_budget Model.after_setup = None /\
exists o1 w1 o2 w2,
  call (add_password Model.lib (lit "a_b") (lit "c") (DStr (lit "first")))
    Model.newcomer Model.after_setup
  = (Return true, o1, w1) /\
  call (add_password Model.lib (lit "a") (lit "b_c") (DStr (lit "second")))
    o1 w1
  = (Return true, o2, w2) /\
  length (passwords o2) = length (passwords o1) /\
  call (get_password Model.lib (lit "a_b") (lit "c")) o2 w2
  = (Return (Some (lit "a", lit "b_c", Some (lit "second"),
                   today Model.after_setup)), o2, w2).
Proof.
split; [apply session_newcomer_ready|]. split; [compute_done|].
apply (add_password_id_collision Model.lib lib_laws Model.newcomer
         Model.after_setup Model.key (lit "first") (lit "second")
         (default [] (utf8_encode (lit "first")))
         (default [] (utf8_encode (lit "second"))));
  [apply session_newcomer_ready | compute_done..].
Defined.

(** ** C6 *)

Lemma save_passwords_in_place_witness :
db_file Model.owner = "passwords.db" /\
exists r w',
  call (_save_passwords Model.lib) Model.owner Model.vault
  = (Return r, Model.owner, w') /\
  match master_key Model.owner with
  | Some k =>
      if key_size_ok k then
        let data := stored Model.lib k Model.vault (passwords Model.owner) in
        match write_budget Model.vault with
        | Some n =>
            if decide (length data <= n)%nat
            then r = true /\
                 files w' = <["passwords.db" := data]> (files Model.vault)
            else r = false /\
                 files w' = <["passwords.db" := take n data]> (files Model.vault)
        | None => r = true /\
                  files w' = <["passwords.db" := data]> (files Model.vault)
        end
      else r = false /\ files w' = files Model.vault
  | None => r = false /\ files w' = files Model.vault
  end.
Proof.
split; [apply session_ready|].
apply (save_passwords_in_place Model.lib lib_laws), session_ready.
Defined.

(** The claim asks that a failed save leaves the store file as it was.
  With room for five more bytes on the device, saving returns [False],
  and the store file, which held the vault, now holds five bytes. *)
Lemma save_passwords_truncates_counterexample :
files Model.full_disk !! "passwords.db" = Some Model.store /\
(5 < length Model.store)%nat /\
let '(r, _, w') := call (_save_passwords Model.lib) Model.owner Model.full_disk in
r = Return false /\
exists rest, files w' !! "passwords.db" = Some rest /\ length rest = 5%nat.
Proof.
split; [compute_done|]. split; [compute_done|].
destruct (call _ _ _) as [[r o'] w'] eqn:E.
assert (r = Return false /\
        length (default [] (files w' !! "passwords.db")) = 5%nat /\
        is_Some (files w' !! "passwords.db")) as (Hr & Hl & [rest Hs]).
{ replace r with (call (_save_passwords Model.lib) Model.owner Model.full_disk).1.1
    by by rewrite E.
  replace w' with (call (_save_passwords Model.lib) Model.owner Model.full_disk).2
    by by rewrite E.
  repeat split; compute_done. }
split; [done|]. exists rest. split; [done|]. by rewrite Hs in Hl.
Qed.

(** ** C7 *)

Lemma session_sound : sound Model.lib Model.key (passwords Model.owner).
Proof.
split; [apply session_is_dict|]. split; [apply session_keyed|].
apply session_reads.
Qed.

Lemma change_master_password_preserves_witness :
ready Model.owner Model.key /\
sound Model.lib Model.key (passwords Model.owner) /\
write_budget Model.vault = None /\
utf8_encode Model.successor = Some Model.successor_bytes /\
exists o' w' o'',
  call (change_master_password Model.lib Model.successor) Model.owner Model.vault
  = (Return true, o', w') /\
  new Model.lib Model.successor w' = (Return o'', w') /\
  length (passwords o'') = length (passwords Model.owner) /\
  (exists e',
     dict_get (lit "github_me") (passwords o'') = Some e' /\
     service e' = lit "github" /\ username e' = lit "me" /\
     reads Model.lib (master_key o'') e' (lit "secret123")) /\
  verify_master_password Model.lib Model.master w' = (Return false, w').
Proof.
split; [apply session_ready|]. split; [apply session_sound|].
split; [compute_done|]. split; [compute_done|].
destruct (change_master_password_preserves Model.lib lib_laws Model.owner
            Model.vault Model.key Model.master Model.successor
            Model.successor_bytes)
  as (o' & w' & o'' & Hrun & Hnew & Hlen & Hrec & Hold);
  [apply session_ready | apply session_sound | compute_done
  | compute_done | |].
{ intros ob Hob.
  assert (utf8_encode Model.master = Some (byte_of_N <$> Model.master)) as Hm
    by compute_done.
  rewrite Hm in Hob. apply (inj Some) in Hob. subst ob. compute_done. }
exists o', w', o''. split; [done|]. split; [done|].
split; [apply Hlen; compute_done|]. split; [|done].
assert (exists e, (lit "github_me", e) ∈ passwords Model.owner /\
                  service e = lit "github" /\ username e = lit "me" /\
                  reads Model.lib (Some Model.key) e (lit "secret123"))
  as (e & Hin & Hsv & Hun & Hrd).
{ exists (default {| service := []; username := []; password := []; date := [] |}
            (dict_get (lit "github_me") (passwords Model.owner))).
  split; [apply dict_get_elem|]; unfold reads; compute_done. }
destruct (Hrec _ _ _ Hin Hrd) as (e' & He' & Hs' & Hu' & Hr').
exists e'. split; [exact He'|]. split; [exact (eq_trans Hs' Hsv)|].
split; [exact (eq_trans Hu' Hun)|exact Hr'].
Defined.

(** ** C8 *)

Lemma new_without_store_witness :
(files Model.fresh !! "passwords.db" = None \/
 files Model.fresh !! "passwords.db" = Some []) /\
exists k,
  new Model.lib Model.master Model.fresh =
    (Return {| master_key := k; db_file := "passwords.db"; passwords := [] |},
     Model.fresh).
Proof.
split; [by left|]. apply new_without_store. by left.
Defined.

(** ** C9 *)

Lemma delete_password_spec_witness :
ready Model.owner Model.key /\
is_dict (passwords Model.owner) /\
write_budget Model.vault = None /\
dict_in (password_id (lit "github") (lit "me")) (passwords Model.owner) = true /\
exists o' w',
  call (delete_password Model.lib (lit "github") (lit "me"))
    Model.owner Model.vault = (Return true, o', w') /\
  passwords o' = [] /\
  call (_load_passwords Model.lib) o' w' = (Return [], o', w') /\
  call (delete_password Model.lib (lit "github") (lit "me")) o' w'
  = (Return false, o', w').
Proof.
assert (dict_in (password_id (lit "github") (lit "me"))
          (passwords Model.owner) = true) as Hin by compute_done.
split; [apply session_ready|]. split; [apply session_is_dict|].
split; [compute_done|]. split; [exact Hin|].
pose proof (delete_password_spec Model.lib lib_laws Model.owner Model.vault
              Model.key (lit "github") (lit "me") session_ready
              session_is_dict) as H.
cbv zeta in H. rewrite Hin in H.
destruct H as (o' & w' & Hdel & Hd & Hload & Hagain); [compute_done|].
assert (dict_del (password_id (lit "github") (lit "me"))
          (passwords Model.owner) = []) as Hnil by compute_done.
rewrite Hnil in Hd. rewrite Hd in Hload. exists o', w'.
split; [exact Hdel|]. split; [exact Hd|]. split; [exact Hload|exact Hagain].
Defined.

(** ** C10 *)

Lemma delete_password_absent_unchanged_witness :
dict_in (password_id (lit "gitlab") (lit "me")) (passwords Model.owner) = false /\
call (delete_password Model.lib (lit "gitlab") (lit "me"))
  Model.owner Model.vault
= (Return false, Model.owner, Model.vault).
Proof.
assert (dict_in (password_id (lit "gitlab") (lit "me"))
          (passwords Model.owner) = false) as H by compute_done.
split; [exact H|]. by apply delete_password_absent_unchanged.
Defined.
End Session.

(** * More of crypto_utils.py *)
Section CryptoUtilsMore.
Import Lib CryptoUtils.
Context (L : Lib.t).

(** [encrypt_password] touches nothing but the tape. *)
Lemma encrypt_password_frame data key w r w' :
encrypt_password L data key w = (r, w') ->
files w' = files w /\ write_budget w' = write_budget w /\ today w' = today w.
Proof.
unfold encrypt_password, encrypt_data, AESGCM, AESGCM_encrypt, urandom. mrun.
destruct data as [s|b|]; mrun.
- destruct (utf8_encode s); mrun; [|by intros [= _ <-]].
  destruct key as [k|]; mrun; [|by intros [= _ <-]].
  destruct (key_size_ok k); mrun; [|by intros [= _ <-]].
  destruct (nonce_size_ok _); mrun; [|by intros [= _ <-]].
  destruct (utf8_decode _); mrun; by intros [= _ <-].
- destruct key as [k|]; mrun; [|by intros [= _ <-]].
  destruct (key_size_ok k); mrun; [|by intros [= _ <-]].
  destruct (nonce_size_ok _); mrun; [|by intros [= _ <-]].
  destruct (utf8_decode _); mrun; by intros [= _ <-].
- destruct key as [k|]; mrun; [|by intros [= _ <-]].
  destruct (key_size_ok k); mrun; by intros [= _ <-].
Qed.

(** X10: [decrypt_password] never raises and leaves the state alone;
  when it returns text, the argument was base64 of a blob whose tag
  verified under the key, and the text is the UTF-8 decoding of what
  the blob held. *)
Theorem decrypt_password_authentic text key {S} (s : S) :
exists r,
  decrypt_password L text key s = (Return r, s) /\
  forall p, r = Some p ->
    exists blob k pt,
      b64decode L text = Some blob /\ key = Some k /\
      aesgcm_decrypt L k (take NONCE_SIZE blob) (drop NONCE_SIZE blob)
      = Some pt /\
      utf8_decode pt = Some p.
Proof.
unfold decrypt_password. mrun.
destruct (b64decode L text) as [blob|]; mrun; [|by eexists].
destruct (decrypt_data L blob key s) as [r s'] eqn:E.
destruct (decrypt_data_total L blob key s) as [r' E']. rewrite E' in E.
injection E as <- <-. mrun. exists r'. split; [done|].
intros p ->. apply decrypt_data_some in E' as (k & pt & ? & ? & ?).
by exists blob, k, pt.
Qed.



(** X8: a blob of fewer than 8 bytes, the empty one included, holds no
  nonce that AES-GCM takes: [decrypt_data] returns [None] for it
  under every key. *)
Theorem decrypt_data_short_blob blob key {S} (s : S) :
(length blob < 8)%nat ->
decrypt_data L blob key s = (Return None, s).
Proof.
intros Hlen. unfold decrypt_data, AESGCM, AESGCM_decrypt. mrun.
destruct key as [k|]; mrun; [|done].
destruct (key_size_ok k); mrun; [|done].
unfold nonce_size_ok. rewrite bool_decide_eq_false_2; [done|].
rewrite length_take. lia.
Qed.

(** X1: [hash_password] without a salt takes the next 16 bytes of
  [os.urandom] as the salt; called again with the salt it returned, it
  draws nothing and returns the same key and salt. *)
Theorem hash_password_reproducible pw w key salt w' :
hash_password L pw None w = (Return (key, salt), w') ->
salt = tape_take SALT_SIZE w /\
w' = tape_drop SALT_SIZE w /\
forall w0, hash_password L pw (Some salt) w0 = (Return (key, salt), w0).
Proof.
unfold hash_password, generate_salt, urandom. mrun.
rewrite derive_key_eq. destruct (utf8_encode pw) as [b|] eqn:Hb; mrun; [|done].
intros [= <- <- <-]. split; [done|]. split; [done|]. intros w0.
mrun. rewrite derive_key_eq, Hb. done.
Qed.

Context (HL : laws L).

(** X9: a password that encodes, encrypted by [encrypt_password] under a
  32-byte key, is ASCII text that [decrypt_password] turns back into
  the password under the same key. *)
Theorem encrypt_decrypt_password_roundtrip p pb k w :
utf8_encode p = Some pb -> length k = KEY_SIZE ->
exists text w',
  encrypt_password L (DStr p) (Some k) w = (Return text, w') /\
  ascii_str text /\
  forall S (s : S), decrypt_password L text (Some k) s = (Return (Some p), s).
Proof.
intros Hp Hk%key_size_32. eexists _, _.
split; [by apply (encrypt_password_str L HL)|]. split.
- unfold sealed_text, ascii_str. apply Forall_fmap.
  eapply Forall_impl; [apply (b64_ascii L HL)|]. done.
- intros S s. rewrite (decrypt_password_sealed L HL) by done.
  by rewrite (utf8_decode_encode _ _ Hp).
Qed.

(** X5: the key of the vault is kept in the verifier file.  Whenever
  [verify_master_password] accepts a password, [get_master_key] gives
  for it the 32 bytes that follow the salt in [master.key]. *)
Theorem verified_key_is_on_file pw w :
verify_master_password L pw w = (Return true, w) ->
exists f,
  files w !! "master.key" = Some f /\
  get_master_key L pw w
  = (Return (Some (take KEY_SIZE (drop SALT_SIZE f))), w).
Proof.
rewrite verify_master_password_eq, get_master_key_eq.
destruct (files w !! "master.key") as [f|]; [|done].
destruct (utf8_encode pw) as [b|]; [|done].
intros [= H%bool_decide_eq_true]. exists f. by rewrite H.
Qed.

(** X2: a [setup_master_password] that returned [True] left a verifier
  file of 48 bytes, the 16 bytes drawn from [os.urandom] first, whatever
  the file held before, and no other file changed. *)
Theorem setup_writes_verifier pw w w' :
setup_master_password L pw w = (Return true, w') ->
exists f,
  files w' !! "master.key" = Some f /\
  length f = 48%nat /\ take SALT_SIZE f = tape_take SALT_SIZE w /\
  forall path, path ≠ "master.key" -> files w' !! path = files w !! path.
Proof.
intros (b & Hb & Hf & _)%(setup_master_password_true L).
eexists. rewrite Hf, lookup_insert_eq. split; [done|]. split; [|split].
- by rewrite length_app, tape_take_length, (derived_length L HL).
- by rewrite take_app_length' by by rewrite tape_take_length.
- intros path Hp. by rewrite lookup_insert_ne.
Qed.

(** A file of fewer than 48 bytes has fewer than 32 after the salt: no
  derived key is equal to them. *)
Lemma derived_ne_short salt b f :
(length f < 48)%nat ->
derived L salt b ≠ take KEY_SIZE (drop SALT_SIZE f).
Proof.
intros Hlen H%(f_equal length). revert H.
rewrite (derived_length L HL), length_take, length_drop.
unfold KEY_SIZE, SALT_SIZE. lia.
Qed.

(** X4: a verifier file shorter than 48 bytes accepts no password: for
  every password [verify_master_password] returns [False], and it
  does not raise. *)
Theorem short_verifier_rejects pw w f :
files w !! "master.key" = Some f -> (length f < 48)%nat ->
verify_master_password L pw w = (Return false, w).
Proof.
intros Hf Hlen. rewrite verify_master_password_eq, Hf.
destruct (utf8_encode pw) as [b|]; [|done].
by rewrite bool_decide_eq_false_2 by by apply derived_ne_short.
Qed.

(** What [setup_master_password] leaves behind on a device that takes
  [n] more bytes, fewer than the 48 it writes. *)
Lemma setup_master_password_short pw b w n :
utf8_encode pw = Some b -> write_budget w = Some n -> (n < 48)%nat ->
exists w',
  setup_master_password L pw w = (Return false, w') /\
  files w' !! "master.key"
  = Some (take n (tape_take SALT_SIZE w
                  ++ derived L (tape_take SALT_SIZE w) b)).
Proof.
intros Hb Hw Hn.
unfold setup_master_password, hash_password, generate_salt, urandom,
  open_wb. mrun.
rewrite derive_key_eq, Hb. mrun.
set (salt := tape_take SALT_SIZE w). set (key := derived L salt b).
assert (length salt = 16%nat) as Hsalt by apply tape_take_length.
assert (length key = 32%nat) as Hkey by apply (derived_length L HL).
unfold write at 1.
cbn [write_budget files set_files tape_drop set_entropy]. rewrite Hw.
rewrite lookup_insert_eq. cbn [default app].
destruct (decide (length salt <= n)%nat) as [Hle|Hgt]; mrun.
- unfold write.
  cbn [write_budget files set_files set_write_budget]. rewrite lookup_insert_eq.
  cbn [default]. rewrite decide_False by lia. mrun.
  eexists. split; [done|]. cbn [files set_write_budget set_files].
  rewrite lookup_insert_eq. f_equal.
  rewrite take_app, (take_ge salt) by lia. done.
- eexists. split; [done|]. cbn [files set_write_budget set_files].
  rewrite lookup_insert_eq. f_equal.
  rewrite take_app_le by lia. done.
Qed.

(** X3: on a device that runs out before the 48 bytes are written,
  [setup_master_password] returns [False] and leaves a cut verifier
  file, under which no password verifies any more, the one just set
  and any earlier one included. *)
Theorem setup_on_full_device_locks pw b w n :
utf8_encode pw = Some b -> write_budget w = Some n -> (n < 48)%nat ->
exists w',
  setup_master_password L pw w = (Return false, w') /\
  forall q, verify_master_password L q w' = (Return false, w').
Proof.
intros Hb Hw Hn.
destruct (setup_master_password_short pw b w n) as (w' & Hrun & Hf); [done..|].
exists w'. split; [done|]. intros q.
rewrite verify_master_password_eq, Hf.
destruct (utf8_encode q) as [qb|]; [|done].
rewrite bool_decide_eq_false_2; [done|].
apply derived_ne_short. rewrite length_take. lia.
Qed.
End CryptoUtilsMore.

(** * More of class PasswordManager *)
Section ManagerMore.
Import Lib CryptoUtils Manager.
Context (L : Lib.t).

Implicit Types (o : PasswordManager) (w : World) (s : State).

(** A handler that returns ends every [try] in a return. *)
Lemma try_except_returns {S A} (m : M S A) (a : A) (x : S) :
exists r x', try_except m (mret a) x = (Return r, x').
Proof. rewrite try_except_eq. destruct (m x) as [[r|e] x']; by eexists _, _. Qed.

Lemma encrypt_password_raises data key w :
key = None \/ data = DNone ->
exists e w', encrypt_password L data key w = (Raise e, w').
Proof.
intros H. unfold encrypt_password, encrypt_data, AESGCM, AESGCM_encrypt,
  urandom. mrun.
destruct H as [->| ->].
- destruct data as [s|b|]; mrun; [|by eexists _, _..].
  destruct (utf8_encode s); mrun; by eexists _, _.
- mrun. destruct key as [k|]; mrun; [|by eexists _, _].
  destruct (key_size_ok k); mrun; by eexists _, _.
Qed.

(** When the password cannot be encrypted, [add_password] stops there. *)
Lemma add_password_raise o w sv un p e w' :
encrypt_password L p (master_key o) w = (Raise e, w') ->
add_password L sv un p {| self := o; world := w |}
= (Return false, {| self := o; world := w' |}).
Proof. intros H. unfold add_password. mrun. by rewrite H. Qed.

Lemma dict_del_length k d :
is_Some (dict_get k d) -> (length (dict_del k d) + 1 = length d)%nat.
Proof.
induction d as [|[k' v'] d IH]; csimpl; [by intros [? [=]]|].
destruct (decide (k = k')); csimpl; [lia|]. intros H. rewrite <- IH; [lia|done].
Qed.

Lemma dict_set_length k v d :
length (dict_set k v d)
= (length d + if dict_in k d then 0 else 1)%nat.
Proof.
unfold dict_in. induction d as [|[k' v'] d IH]; csimpl; [done|].
destruct (decide (k = k')); csimpl.
- lia.
- rewrite IH. done.
Qed.

(** X19: [get_password] changes neither the instance nor the world, and
  it returns [None] exactly when no record is stored under the id of
  the pair. *)
Theorem get_password_reads_only o w sv un :
exists r,
  call (get_password L sv un) o w = (Return r, o, w) /\
  (r = None <-> dict_in (password_id sv un) (passwords o) = false).
Proof.
eexists. split; [apply call_eq, get_password_eq|].
rewrite dict_in_false. destruct (dict_get _ _) as [e|]; [|done].
destruct (decrypt_password_total L (password e) (master_key o) tt) as [r ->].
done.
Qed.

(** X20: [get_all_passwords] changes nothing and hands out one row for
  each record, in the order of the dict, with the service, user name
  and date of the record; on a dict in order under the key of the
  instance every row carries a password. *)
Theorem get_all_passwords_rows o w :
exists rows,
  call (get_all_passwords L) o w = (Return rows, o, w) /\
  (fun r : row => (r.1.1.1, r.1.1.2, r.2)) <$> rows
  = (fun kv => (service kv.2, username kv.2, date kv.2)) <$> passwords o /\
  forall k, master_key o = Some k -> sound L k (passwords o) ->
    Forall (fun r : row => is_Some r.1.2) rows.
Proof.
eexists. split; [apply call_eq, get_all_passwords_eq|]. split.
- rewrite <- list_fmap_compose. done.
- intros k -> (_ & _ & Hr). apply Forall_fmap.
  eapply Forall_impl; [exact Hr|]. intros kv [p Hp]. unfold row_of, reads in *.
  cbn. rewrite Hp. by eexists.
Qed.

Context (HL : laws L).

(** [_save_passwords] always returns, with the instance as it was. *)
Lemma save_returns o w :
exists r w',
  _save_passwords L {| self := o; world := w |}
  = (Return r, {| self := o; world := w' |}).
Proof. destruct (save_outcome L HL o w) as (r & w' & H & _). by exists r, w'. Qed.

(** With a key and a password that encodes, [add_password] puts the
  record in the dict and then saves, whatever the save gives. *)
Lemma add_password_stores o w k sv un p pb :
master_key o = Some k -> key_size_ok k = true -> utf8_encode p = Some pb ->
exists r w',
  add_password L sv un (DStr p) {| self := o; world := w |}
  = (Return r,
     {| self := {| master_key := master_key o; db_file := db_file o;
                   passwords :=
                     dict_set (password_id sv un)
                       {| service := sv; username := un;
                          password := sealed_text L k w pb;
                          date := today w |}
                       (passwords o) |};
        world := w' |}) /\
  (write_budget w = None -> r = true).
Proof.
intros Hk Hs Hp. rewrite (add_password_str L HL _ _ k _ _ _ pb) by done.
destruct (write_budget w) as [n|] eqn:Hw.
- destruct (save_returns
      {| master_key := master_key o; db_file := db_file o;
         passwords := dict_set (password_id sv un)
                        {| service := sv; username := un;
                           password := sealed_text L k w pb;
                           date := today w |} (passwords o) |}
      (tape_drop NONCE_SIZE w)) as (r & w' & ->).
  by exists r, w'.
- rewrite (save_unlimited L HL _ _ k) by done. by eexists _, _.
Qed.

(** X15: with a key and a password that encodes, after [add_password] the
  record is in the instance, and [get_password] for the same pair
  returns service, user name, the password and the date of the day;
  this holds whether or not the save went through, and on a device
  that does not fail [add_password] returns [True]. *)
Theorem add_then_get o w k sv un p pb :
ready o k -> utf8_encode p = Some pb ->
exists r o1 w1,
  call (add_password L sv un (DStr p)) o w = (Return r, o1, w1) /\
  (write_budget w = None -> r = true) /\
  call (get_password L sv un) o1 w1
  = (Return (Some (sv, un, Some p, today w)), o1, w1).
Proof.
intros (Hk & Hlen%key_size_32 & Hdb) Hp.
destruct (add_password_stores o w k sv un p pb) as (r & w1 & Hadd & Hr);
  [done..|].
eexists r, _, w1. split; [by apply call_eq|]. split; [done|].
apply call_eq. rewrite get_password_eq. cbn [passwords master_key].
rewrite dict_get_set. cbn [password service username date].
rewrite Hk, (decrypt_password_sealed L HL) by done. cbn [fst].
by rewrite (utf8_decode_encode _ _ Hp).
Qed.

(** X16: [add_password] touches the record of its id only: every other
  id is looked up as before, and the dict grows by one record when the
  id is new and keeps its size when the id was there. *)
Theorem add_password_frame o w k sv un p pb :
ready o k -> utf8_encode p = Some pb ->
exists r o1 w1,
  call (add_password L sv un (DStr p)) o w = (Return r, o1, w1) /\
  (forall id, id ≠ password_id sv un ->
     dict_get id (passwords o1) = dict_get id (passwords o)) /\
  length (passwords o1)
  = (length (passwords o)
     + if dict_in (password_id sv un) (passwords o) then 0 else 1)%nat.
Proof.
intros (Hk & Hlen%key_size_32 & Hdb) Hp.
destruct (add_password_stores o w k sv un p pb) as (r & w1 & Hadd & Hr);
  [done..|].
eexists r, _, w1. split; [by apply call_eq|]. cbn [passwords]. split.
- intros id Hid. by apply dict_get_set_ne.
- apply dict_set_length.
Qed.

(** X17: without a key, or for a password that is [None], [add_password]
  returns [False]; the instance keeps its dict and no file changes. *)
Theorem add_password_refuses o w sv un p :
master_key o = None \/ p = DNone ->
exists w',
  call (add_password L sv un p) o w = (Return false, o, w') /\
  files w' = files w.
Proof.
intros H.
destruct (encrypt_password_raises p (master_key o) w H) as (e & w' & He).
exists w'. split; [by apply call_eq, add_password_raise with e|].
by apply encrypt_password_frame in He as [? _].
Qed.

(** [delete_password] of a stored id takes the record out and saves. *)
Lemma delete_password_removes o w sv un :
dict_in (password_id sv un) (passwords o) = true ->
exists r w',
  delete_password L sv un {| self := o; world := w |}
  = (Return r,
     {| self := {| master_key := master_key o; db_file := db_file o;
                   passwords := dict_del (password_id sv un) (passwords o) |};
        world := w' |}).
Proof.
intros H. unfold delete_password. mrun. rewrite H. mrun.
unfold set_passwords. mrun.
destruct (save_returns
    {| master_key := master_key o; db_file := db_file o;
       passwords := dict_del (password_id sv un) (passwords o) |} w)
  as (r & w' & ->).
by exists r, w'.
Qed.

(** X23: [delete_password] of a stored pair takes one record out of the
  dict, the one under the id of the pair, and every other id is looked
  up as before; this holds whether or not the save went through. *)
Theorem delete_password_frame o w sv un :
is_dict (passwords o) ->
dict_in (password_id sv un) (passwords o) = true ->
exists r o1 w1,
  call (delete_password L sv un) o w = (Return r, o1, w1) /\
  dict_get (password_id sv un) (passwords o1) = None /\
  (forall id, id ≠ password_id sv un ->
     dict_get id (passwords o1) = dict_get id (passwords o)) /\
  (length (passwords o1) + 1 = length (passwords o))%nat.
Proof.
intros Hd Hin.
destruct (delete_password_removes o w sv un Hin) as (r & w1 & Hdel).
eexists r, _, w1. split; [by apply call_eq|]. cbn [passwords].
split; [by apply dict_get_del|]. split.
- intros id Hid. by apply dict_get_del_ne.
- by apply dict_del_length, dict_in_true.
Qed.

(** X14: whatever [_save_passwords] reported as saved loads back: after a
  save that returned [True], [_load_passwords] gives the dict of the
  instance. *)
Theorem save_then_load o w k o' w' :
ready o k -> is_dict (passwords o) ->
call (_save_passwords L) o w = (Return true, o', w') ->
o' = o /\
call (_load_passwords L) o' w' = (Return (passwords o), o', w').
Proof.
intros (Hk & Hlen%key_size_32 & Hdb) Hd.
destruct (save_outcome L HL o w) as (r & w1 & Hrun & Hm).
rewrite (call_eq _ _ _ _ _ _ Hrun). intros [= -> <- <-].
split; [done|]. apply call_eq.
rewrite Hk, Hlen in Hm. cbv zeta in Hm.
assert (files w1 = <[db_file o := stored L k w (passwords o)]> (files w)) as Hf.
{ destruct (write_budget w) as [n|]; [|by destruct Hm].
  destruct (decide _); by destruct Hm. }
apply (load_stored L HL _ _ k w); [done..|].
by rewrite Hf, lookup_insert_eq.
Qed.

(** X18: a record added on a device that does not fail is there when the
  vault is opened again with the password of the key: the constructor
  gives back the instance as [add_password] left it. *)
Theorem add_then_reopen o w k pw sv un p pb :
ready o k -> is_dict (passwords o) -> write_budget w = None ->
utf8_encode p = Some pb ->
fst (get_master_key L pw w) = Return (Some k) ->
exists o1 w1,
  call (add_password L sv un (DStr p)) o w = (Return true, o1, w1) /\
  dict_in (password_id sv un) (passwords o1) = true /\
  new L pw w1 = (Return o1, w1).
Proof.
intros (Hk & Hlen%key_size_32 & Hdb) Hd Hw Hp Hkey.
eexists _, _. split.
{ apply call_eq. by apply (add_password_ok L HL o w k sv un p pb). }
cbn [passwords]. split.
{ apply dict_in_true. rewrite dict_get_set. by eexists. }
rewrite Hk, Hdb. apply new_eq.
- rewrite get_master_key_eq in *. cbn [fst] in *.
  unfold set_files, tape_drop, set_entropy. cbn [files].
  by rewrite lookup_insert_ne.
- rewrite (load_stored L HL _ _ k (tape_drop NONCE_SIZE w)
             (dict_set (password_id sv un)
                {| service := sv; username := un;
                   password := sealed_text L k w pb; date := today w |}
                (passwords o))); [done..| |].
  + by apply dict_set_is_dict.
  + unfold set_files. cbn [files db_file]. by rewrite lookup_insert_eq.
Qed.

(** X24: the dict stays in order.  On an instance with its key, a dict
  that is in order (no id twice, every record under the id of its own
  service and user name, every password readable under the key) is
  still in order after [add_password] with any text and after
  [delete_password], whatever they return. *)
Theorem vault_stays_sound o w k :
ready o k -> sound L k (passwords o) ->
(forall sv un p r o' w',
   call (add_password L sv un (DStr p)) o w = (r, o', w') ->
   sound L k (passwords o')) /\
(forall sv un r o' w',
   call (delete_password L sv un) o w = (r, o', w') ->
   sound L k (passwords o')).
Proof.
intros (Hk & Hlen%key_size_32 & Hdb) Hsound. split.
- intros sv un p r o' w'. destruct (utf8_encode p) as [pb|] eqn:Hp.
  + destruct (add_password_stores o w k sv un p pb) as (r1 & w1 & Hadd & _);
      [done..|].
    rewrite (call_eq _ _ _ _ _ _ Hadd). intros [= _ <- _]. cbn [passwords].
    apply (sound_add L HL) with p; [done| |done].
    by apply utf8_decode_encode.
  + assert (encrypt_password L (DStr p) (master_key o) w
            = (Raise UnicodeError, w)) as He.
    { unfold encrypt_password, encrypt_data. mrun. by rewrite Hp. }
    rewrite (call_eq _ _ _ _ _ _ (add_password_raise o w sv un _ _ _ He)).
    by intros [= _ <- _].
- intros sv un r o' w'.
  destruct (dict_in (password_id sv un) (passwords o)) eqn:Hin.
  + destruct (delete_password_removes o w sv un Hin) as (r1 & w1 & Hdel).
    rewrite (call_eq _ _ _ _ _ _ Hdel). intros [= _ <- _]. cbn [passwords].
    by apply sound_del.
  + rewrite (call_eq _ _ _ _ _ _ (delete_password_absent L o w sv un Hin)).
    by intros [= _ <- _].
Qed.
End ManagerMore.

(** * Opening, searching and changing the master password *)
Section VaultMore.
Import Lib CryptoUtils Manager.
Context (L : Lib.t).

Implicit Types (o : PasswordManager) (w : World).

(** Without a key nothing decrypts. *)
Lemma decrypt_password_no_key {S} text (x : S) :
decrypt_password L text None x = (Return None, x).
Proof.
unfold decrypt_password. mrun.
destruct (b64decode L text) as [blob|]; mrun; [|done].
destruct (decrypt_data_total L blob None x) as [[p|] E]; rewrite E; [|done].
by apply decrypt_data_some in E as (k & pt & [=] & _).
Qed.

(** Where the dict that [_load_passwords] returns comes from. *)
Lemma load_origin o w :
exists d,
  _load_passwords L {| self := o; world := w |}
  = (Return d, {| self := o; world := w |}) /\
  (d ≠ [] ->
   exists c text j,
     files w !! db_file o = Some c /\ utf8_decode c = Some text /\
     fst (decrypt_password L text (master_key o) tt) = Return (Some j) /\
     json_loads L j = Some d).
Proof.
unfold _load_passwords, path_exists, open_rb. mrun.
destruct (files w !! db_file o) as [c|] eqn:Hc.
2:{ rewrite bool_decide_eq_false_2 by by intros [? [=]]. by exists []. }
rewrite bool_decide_eq_true_2 by by eexists.
cbn [negb]. mrun. rewrite Hc. mrun.
destruct c as [|c0 c]; mrun; [by exists []|].
destruct (utf8_decode (c0 :: c)) as [text|] eqn:Ht; mrun; [|by exists []].
rewrite decrypt_password_pure.
destruct (decrypt_password_total L text (master_key o) tt) as [r Hr].
rewrite Hr. mrun. destruct r as [[|j0 j]|]; mrun; try (by exists []).
destruct (json_loads L (j0 :: j)) as [d|] eqn:Hj; mrun; [|by exists []].
exists d. split; [done|]. intros _. exists (c0 :: c), text, (j0 :: j).
by rewrite Hr.
Qed.

(** X11: the constructor never raises and changes nothing in the world;
  the records of the instance it returns, when there are any, are the
  JSON content of a store file that decrypted under the key derived
  from the given password: it never fills the vault from a store it
  could not authenticate. *)
Theorem new_loads_only_authenticated pw w :
exists o,
  new L pw w = (Return o, w) /\
  db_file o = "passwords.db" /\
  fst (get_master_key L pw w) = Return (master_key o) /\
  (passwords o ≠ [] ->
   exists k c text j,
     master_key o = Some k /\
     files w !! "passwords.db" = Some c /\ utf8_decode c = Some text /\
     fst (decrypt_password L text (Some k) tt) = Return (Some j) /\
     json_loads L j = Some (passwords o)).
Proof.
pose proof (get_master_key_eq L pw w) as Hk.
match type of Hk with _ = (Return ?x, _) => set (key := x) in Hk end.
destruct (load_origin {| master_key := key; db_file := "passwords.db";
                         passwords := [] |} w) as (d & Hd & Hfrom).
eexists. split; [apply new_eq; [by rewrite Hk | by rewrite Hd]|].
cbn [db_file master_key passwords]. split; [done|].
split; [by rewrite Hk|]. intros Hne.
destruct (Hfrom Hne) as (c & text & j & Hc & Ht & Hj & Hl).
cbn [db_file master_key] in *. destruct key as [k|] eqn:E.
- by exists k, c, text, j.
- by rewrite decrypt_password_no_key in Hj.
Qed.

(** Without a key, or for a password that is [None], [add_password]
  gives up before it touches the dict. *)
Lemma add_password_gives_up o w sv un p :
master_key o = None \/ p = DNone ->
exists w',
  add_password L sv un p {| self := o; world := w |}
  = (Return false, {| self := o; world := w' |}) /\
  files w' = files w /\ write_budget w' = write_budget w /\
  today w' = today w.
Proof.
intros H.
destruct (encrypt_password_raises L p (master_key o) w H) as (e & w' & He).
exists w'. split; [by apply add_password_raise with e|].
by apply encrypt_password_frame in He.
Qed.

(** X12: when there is no verifier file the constructor gives an
  instance without a key and with no records, whatever the store file
  holds, and that instance refuses every [add_password]: it returns
  [False], keeps its dict and changes no file. *)
Theorem new_without_verifier pw w :
files w !! "master.key" = None ->
let o := {| master_key := None; db_file := "passwords.db";
            passwords := [] |} in
new L pw w = (Return o, w) /\
forall sv un p w0,
  exists w1,
    call (add_password L sv un p) o w0 = (Return false, o, w1) /\
    files w1 = files w0.
Proof.
intros Hf o. split.
- apply new_eq.
  + by rewrite get_master_key_eq, Hf.
  + destruct (files w !! "passwords.db") as [c|] eqn:Hc.
    * rewrite (load_undecryptable L _ w c); [done..|].
      intros text _. by rewrite decrypt_password_no_key.
    * by rewrite load_absent.
- intros sv un p w0.
  destruct (add_password_gives_up o w0 sv un p) as (w1 & Hadd & Hfiles & _);
    [by left|].
  exists w1. split; [by apply call_eq|done].
Qed.

(** X13: a password that [verify_master_password] accepts opens the
  vault with the key of the verifier file: the instance the
  constructor returns holds the 32 bytes stored after the salt and
  names the store file. *)
Theorem verified_open_is_ready (HL : laws L) pw w :
fst (verify_master_password L pw w) = Return true ->
exists o f,
  new L pw w = (Return o, w) /\
  files w !! "master.key" = Some f /\
  ready o (take KEY_SIZE (drop SALT_SIZE f)).
Proof.
rewrite verify_master_password_eq. cbn [fst].
pose proof (get_master_key_eq L pw w) as Hk.
destruct (files w !! "master.key") as [f|] eqn:Hf; [|done].
destruct (utf8_encode pw) as [b|] eqn:Hb; [|done].
intros [= Hv%bool_decide_eq_true].
destruct (load_total L {| self := {| master_key := Some (derived L (take SALT_SIZE f) b);
    db_file := "passwords.db"; passwords := [] |}; world := w |}) as [d Hd].
eexists _, f. split; [apply new_eq; [by rewrite Hk | by rewrite Hd]|].
split; [done|]. unfold ready. cbn [master_key db_file]. rewrite <- Hv.
split; [done|]. split; [|done]. apply derived_length, HL.
Qed.

(** ** search_passwords *)

Lemma starts_with_spec s q : starts_with s q = true <-> exists b, s = q ++ b.
Proof.
revert s. induction q as [|c q IH]; intros s; cbn [starts_with].
{ split; [by exists s | by destruct s]. }
destruct s as [|c' s]; [split; [done | by intros [? [=]]]|].
cbn [starts_with]. rewrite andb_true_iff, bool_decide_eq_true, IH. split.
- intros [-> [b ->]]. by exists b.
- intros [b [= -> ->]]. split; [done | by exists b].
Qed.

(** [contains s q] is [q in s]: [q] occurs in [s] as a substring. *)
Lemma contains_spec s q :
contains s q = true <-> exists a b, s = a ++ q ++ b.
Proof.
induction s as [|c s IH]; cbn [contains]; rewrite orb_true_iff, starts_with_spec.
- split.
  + intros [[b Hb]|[=]]. by exists [], b.
  + intros (a & b & H). left. destruct a; [by exists b|done].
- rewrite IH. split.
  + intros [[b Hb]|(a & b & ->)]; [by exists [], b|]. by exists (c :: a), b.
  + intros (a & b & H). destruct a as [|c' a]; [left; by exists b|].
    right. injection H as _ ->. by exists a, b.
Qed.

Section Lower.
Context (lower : str -> str).

Lemma search_passwords_eq o w query :
search_passwords L lower query {| self := o; world := w |}
= (Return
     ((fun kv => row_of L (master_key o) kv.2)
      <$> filter (fun kv : str * entry =>
                    contains (lower (service kv.2)) (lower query) = true)
            (passwords o)),
   {| self := o; world := w |}).
Proof.
unfold search_passwords. cbv zeta. mrun.
assert (forall d x, for_collect d
    (fun item : str * entry =>
       if contains (lower (service item.2)) (lower query)
       then Some <$> decrypted_row L (master_key o) item.2
       else mret None) x
  = (Return ((fun kv => row_of L (master_key o) kv.2)
             <$> filter (fun kv : str * entry =>
                    contains (lower (service kv.2)) (lower query) = true) d),
     x)) as Hfc; [|by rewrite Hfc].
induction d as [|[id e] d IH]; intros x; [done|].
cbn [for_collect]. unfold Py.bind at 1. cbn [snd].
destruct (contains (lower (service e)) (lower query)) eqn:Hc.
- rewrite filter_cons_True by done.
  unfold decrypted_row at 1. mrun. rewrite decrypt_password_pure.
  destruct (decrypt_password_total L (password e) (master_key o) tt) as [r Hr].
  rewrite Hr. mrun. unfold Py.bind at 1. rewrite IH. csimpl.
  unfold row_of. cbn [snd]. rewrite Hr. done.
- rewrite filter_cons_False by (cbn [snd]; congruence).
  mrun. unfold Py.bind at 1. by rewrite IH.
Qed.

(** X21: [search_passwords] changes nothing and returns, in their order,
  the rows of [get_all_passwords] whose service, in lower case, has
  the query in lower case as a substring. *)
Theorem search_passwords_selects o w query :
exists all found,
  call (get_all_passwords L) o w = (Return all, o, w) /\
  call (search_passwords L lower query) o w = (Return found, o, w) /\
  found = filter (fun r => contains (lower (row_service r)) (lower query) = true)
            all /\
  forall r, r ∈ found <->
    r ∈ all /\ exists a b, lower (row_service r) = a ++ lower query ++ b.
Proof.
eexists _, _. split; [apply call_eq, get_all_passwords_eq|].
split; [apply call_eq, search_passwords_eq|].
assert ((fun kv => row_of L (master_key o) kv.2)
        <$> filter (fun kv : str * entry =>
                      contains (lower (service kv.2)) (lower query) = true)
              (passwords o)
        = filter (fun r => contains (lower (row_service r)) (lower query) = true)
            ((fun kv => row_of L (master_key o) kv.2) <$> passwords o)) as ->.
{ induction (passwords o) as [|[id e] d IH]; [done|]. csimpl.
  destruct (contains (lower (service e)) (lower query)) eqn:Hc.
  - rewrite !filter_cons_True by done. csimpl. by rewrite IH.
  - rewrite !filter_cons_False by (cbn; congruence). done. }
split; [done|]. intros r. rewrite list_elem_of_filter, contains_spec. tauto.
Qed.

(** X22: a query whose lower case is empty selects everything:
  [search_passwords] then returns what [get_all_passwords] returns. *)
Theorem search_passwords_empty_query o w query :
lower query = [] ->
call (search_passwords L lower query) o w = call (get_all_passwords L) o w.
Proof.
intros Hq.
rewrite (call_eq _ _ _ _ _ _ (search_passwords_eq o w query)).
rewrite (call_eq _ _ _ _ _ _ (get_all_passwords_eq L o w)).
rewrite Hq.
assert (filter (fun kv : str * entry =>
                  contains (lower (service kv.2)) [] = true) (passwords o)
        = passwords o) as ->; [|done].
induction (passwords o) as [|kv d IH]; [done|].
rewrite filter_cons_True; [by rewrite IH|].
by destruct (lower (service kv.2)).
Qed.
End Lower.

(** ** change_master_password *)

Lemma add_password_returns sv un p (x : State) :
exists r x', add_password L sv un p x = (Return r, x').
Proof. apply try_except_returns. Qed.

Lemma for_each_returns {S A} (body : A -> M S unit) (l : list A) :
(forall a x, exists x', body a x = (Return tt, x')) ->
forall x, exists x', for_each l body x = (Return tt, x').
Proof.
intros Hbody. induction l as [|a l IH]; intros x; [by eexists|].
cbn [for_each]. unfold Py.bind at 1.
destruct (Hbody a x) as [x' ->]. apply IH.
Qed.

Lemma setup_master_password_returns pw w :
exists r w', setup_master_password L pw w = (Return r, w').
Proof. apply try_except_returns. Qed.

(** X25: [change_master_password] returns [True] in every state and for
  every new password; it never raises and never returns [False]: what
  fails inside it (the verifier that cannot be written, the record
  that cannot be added again) is swallowed by the functions it
  calls. *)
Theorem change_master_password_returns_true o w npw :
exists o' w',
  call (change_master_password L npw) o w = (Return true, o', w').
Proof.
unfold call, change_master_password. mrun. rewrite get_all_passwords_eq. mrun.
destruct (setup_master_password_returns npw w) as (r & w1 & ->). mrun.
rewrite get_master_key_eq. mrun.
match goal with |- context [for_each ?rows ?body ?x0] =>
  assert (forall a x, exists x', body a x = (Return tt, x')) as Hbody;
  [|destruct (for_each_returns body rows Hbody x0) as [[o' w'] ->]]
end.
{ intros [[[sv un] p] dt] x. mrun.
  destruct (add_password_returns sv un (password_arg p) x) as (r' & x' & ->).
  by eexists. }
by exists o', w'.
Qed.
End VaultMore.

(** * Changing the master password, in general *)
Section RotationMore.
Import Lib CryptoUtils Manager.
Context (L : Lib.t) (HL : laws L).

Implicit Types (o : PasswordManager) (w : World).

(** The loop of [change_master_password] on any dict: a record whose
  password was read is added again under the new key with the date of
  the day; one whose password was not read is handed to [add_password]
  as [None] and is not added. *)
Lemma readd_readable key nk db d : forall acc w,
key_size_ok nk = true -> write_budget w = None ->
NoDup (acc.*1 ++ d.*1) -> keyed d ->
exists d' w',
  for_each ((fun kv => row_of L key kv.2) <$> d)
    (fun '(service, username, password, _) =>
       add_password L service username (password_arg password);;
       mret tt)
    {| self := {| master_key := Some nk; db_file := db; passwords := acc |};
       world := w |}
  = (Return tt,
     {| self := {| master_key := Some nk; db_file := db;
                   passwords := acc ++ d' |};
        world := w' |}) /\
  d'.*1 = (filter (fun kv => readable L key kv = true) d).*1 /\
  Forall (fun kv => date kv.2 = today w) d' /\
  write_budget w' = None /\ today w' = today w.
Proof.
induction d as [|[id e] d IH]; intros acc w Hs Hw Hnd Hkd.
{ exists [], w. rewrite app_nil_r. by repeat split. }
apply Forall_cons in Hkd as [Hid Hkd]. cbn [fst snd] in Hid.
assert (id ∉ acc.*1) as Hfresh.
{ intros Hin. csimpl in Hnd. apply NoDup_app in Hnd as (_ & Hd & _).
  apply (Hd id Hin). apply list_elem_of_here. }
assert (NoDup (acc.*1 ++ d.*1)) as Hnd'.
{ csimpl in Hnd. apply NoDup_app in Hnd as (Ha & Hd & Hd').
  apply NoDup_cons in Hd' as [_ Hd']. apply NoDup_app. repeat split; [done| |done].
  intros x Hx Hx'. apply (Hd x Hx). by apply list_elem_of_further. }
destruct (decrypt_password_total L (password e) key tt) as [r Hr].
destruct r as [p|].
- assert (reads L key e p) as Hp by (unfold reads; by rewrite Hr).
  destruct (reads_encodes _ _ _ _ Hp) as [pb Hpb].
  set (e' := {| service := service e; username := username e;
                password := sealed_text L nk w pb; date := today w |}).
  set (w1 := set_files
        (<[db := stored L nk (tape_drop NONCE_SIZE w) (acc ++ [(id, e')])]>)
        (tape_drop NONCE_SIZE (tape_drop NONCE_SIZE w))).
  destruct (IH (acc ++ [(id, e')]) w1) as (d' & w' & Hrun & Hids & Hdt & Hw' & Ht);
    [done|done| |done|].
  { rewrite fmap_app. csimpl. by rewrite <- app_assoc. }
  exists ((id, e') :: d'), w'. split; [|split; [|split; [|done]]].
  + cbn [fmap list_fmap for_each]. unfold Py.bind at 1.
    unfold row_of at 1. cbn [snd]. rewrite Hr. cbn [fst password_arg]. mrun.
    rewrite (add_password_ok L HL _ _ nk _ _ p pb) by done.
    cbn [master_key db_file passwords]. mrun.
    rewrite <- Hid, dict_set_fresh by done.
    fold e'. fold w1. change (list_fmap _ _ ?f ?l) with (f <$> l).
    rewrite Hrun. by rewrite <- app_assoc.
  + rewrite filter_cons_True by (unfold readable; cbn; by rewrite Hr).
    csimpl. by rewrite Hids.
  + by constructor.
- destruct (add_password_gives_up L
      {| master_key := Some nk; db_file := db; passwords := acc |} w
      (service e) (username e) DNone) as (w1 & Hadd & _ & Hw1 & Ht1);
    [by right|].
  destruct (IH acc w1) as (d' & w' & Hrun & Hids & Hdt & Hw' & Ht);
    [done|congruence|done|done|].
  exists d', w'. split; [|split; [|split; [|split]]].
  + cbn [fmap list_fmap for_each]. unfold Py.bind at 1.
    unfold row_of at 1. cbn [snd]. rewrite Hr. cbn [fst password_arg]. mrun.
    rewrite Hadd. mrun. change (list_fmap _ _ ?f ?l) with (f <$> l).
    by rewrite Hrun.
  + rewrite filter_cons_False by (unfold readable; cbn; by rewrite Hr).
    done.
  + by rewrite <- Ht1.
  + done.
  + congruence.
Qed.

(** [change_master_password] on any dict, with a device that does not
  fail and a new password that encodes. *)
Lemma change_master_password_any o w npw nb :
is_dict (passwords o) -> keyed (passwords o) ->
write_budget w = None -> utf8_encode npw = Some nb ->
exists d' w',
  call (change_master_password L npw) o w
  = (Return true,
     {| master_key := Some (derived L (tape_take SALT_SIZE w) nb);
        db_file := db_file o; passwords := d' |}, w') /\
  d'.*1 = (filter (fun kv => readable L (master_key o) kv = true)
             (passwords o)).*1 /\
  Forall (fun kv => date kv.2 = today w) d'.
Proof.
intros Hd Hkd Hw Hnb.
set (salt := tape_take SALT_SIZE w). set (nk := derived L salt nb).
assert (key_size_ok nk = true) as Hs by apply key_size_32, derived_length, HL.
set (w1 := set_files (<["master.key" := salt ++ nk]>) (tape_drop SALT_SIZE w)).
destruct (readd_readable (master_key o) nk (db_file o) (passwords o) [] w1)
  as (d' & w' & Hrun & Hids & Hdt & _); [done..|].
exists d', w'. split; [|done].
apply call_eq. unfold change_master_password. mrun.
rewrite get_all_passwords_eq. mrun.
rewrite (setup_master_password_unlimited L _ nb) by done. mrun.
fold salt. fold nk. fold w1. rewrite get_master_key_eq.
replace (files w1 !! "master.key") with (Some (salt ++ nk))
  by (unfold w1, set_files; cbn [files]; by rewrite lookup_insert_eq).
rewrite Hnb, take_app_length' by (symmetry; apply tape_take_length).
fold nk. unfold set_master_key, set_passwords. mrun.
cbn [master_key db_file passwords].
change (list_fmap _ _ ?f ?l) with (f <$> l) in Hrun.
rewrite Hrun. done.
Qed.

(** X26: changing the master password dates every record anew: each
  record of the vault afterwards carries the date of the change, not
  the date it was added on. *)
Theorem change_master_password_redates o w npw nb :
is_dict (passwords o) -> keyed (passwords o) ->
write_budget w = None -> utf8_encode npw = Some nb ->
exists o' w',
  call (change_master_password L npw) o w = (Return true, o', w') /\
  Forall (fun kv => date kv.2 = today w) (passwords o').
Proof.
intros Hd Hkd Hw Hnb.
destruct (change_master_password_any o w npw nb) as (d' & w' & Hrun & _ & Hdt);
  [done..|].
by eexists _, w'.
Qed.

(** X27: changing the master password keeps, in their order, exactly
  the records whose stored password decrypts under the old key; a
  record that does not decrypt is dropped from the vault, and the
  method still returns [True]. *)
Theorem change_master_password_drops_unreadable o w npw nb :
is_dict (passwords o) -> keyed (passwords o) ->
write_budget w = None -> utf8_encode npw = Some nb ->
exists o' w',
  call (change_master_password L npw) o w = (Return true, o', w') /\
  (passwords o').*1
  = (filter (fun kv => readable L (master_key o) kv = true) (passwords o)).*1.
Proof.
intros Hd Hkd Hw Hnb.
destruct (change_master_password_any o w npw nb) as (d' & w' & Hrun & Hids & _);
  [done..|].
by eexists _, w'.
Qed.
End RotationMore.

(** * The properties above on the session of the model *)
Section SessionMore.
Import Lib CryptoUtils Manager.

Lemma session_verifies :
verify_master_password Model.lib Model.master Model.after_setup
= (Return true, Model.after_setup).
Proof.
rewrite verify_master_password_eq.
assert (match files Model.after_setup !! "master.key",
              utf8_encode Model.master with
        | Some f, Some b =>
            bool_decide (derived Model.lib (take SALT_SIZE f) b
                         = take KEY_SIZE (drop SALT_SIZE f))
        | _, _ => false
        end = true) as -> by (vm_compute; reflexivity).
reflexivity.
Qed.

Lemma session_master_key :
fst (get_master_key Model.lib Model.master Model.vault)
= Return (Some Model.key).
Proof. vm_compute. reflexivity. Qed.

Lemma session_saved :
call (_save_passwords Model.lib) Model.owner Model.vault
= (Return true, Model.saved.1.2, Model.saved.2).
Proof.
destruct (save_outcome Model.lib lib_laws Model.owner Model.vault)
  as (r & w' & Hrun & Hm).
unfold Model.saved. rewrite (call_eq _ _ _ _ _ _ Hrun). cbn [fst snd].
assert (r = true) as ->; [|done].
assert (master_key Model.owner = Some Model.key) as Hk by apply session_ready.
rewrite Hk in Hm.
assert (key_size_ok Model.key = true) as Hs by (vm_compute; reflexivity).
rewrite Hs in Hm. cbv zeta in Hm.
assert (write_budget Model.vault = None) as Hw by (vm_compute; reflexivity).
rewrite Hw in Hm. by destruct Hm.
Qed.


Lemma decrypt_data_short_blob_witness :
(length (take 7 Model.blob) < 8)%nat /\
decrypt_data Model.lib (take 7 Model.blob) (Some Model.key1) tt
= (Return None, tt).
Proof.
assert (length (take 7 Model.blob) < 8)%nat as H by (rewrite length_take; lia).
split; [exact H|].
exact (decrypt_data_short_blob Model.lib (take 7 Model.blob)
         (Some Model.key1) tt H).
Defined.

Lemma hash_password_reproducible_witness :
hash_password Model.lib Model.master None Model.fresh
= (Return (drop SALT_SIZE Model.verifier, take SALT_SIZE Model.verifier),
   tape_drop SALT_SIZE Model.fresh) /\
take SALT_SIZE Model.verifier = tape_take SALT_SIZE Model.fresh /\
forall w0,
  hash_password Model.lib Model.master (Some (take SALT_SIZE Model.verifier)) w0
  = (Return (drop SALT_SIZE Model.verifier, take SALT_SIZE Model.verifier), w0).
Proof.
assert (hash_password Model.lib Model.master None Model.fresh
        = (Return (drop SALT_SIZE Model.verifier,
                   take SALT_SIZE Model.verifier),
           tape_drop SALT_SIZE Model.fresh)) as H
  by (vm_compute; reflexivity).
split; [exact H|].
destruct (hash_password_reproducible Model.lib _ _ _ _ _ H) as (Hs & _ & Hagain).
split; [exact Hs|exact Hagain].
Defined.

Lemma setup_writes_verifier_witness :
setup_master_password Model.lib Model.master Model.fresh
= (Return true, Model.after_setup) /\
exists f,
  files Model.after_setup !! "master.key" = Some f /\
  length f = 48%nat /\
  take SALT_SIZE f = tape_take SALT_SIZE Model.fresh /\
  forall path, path ≠ "master.key" ->
    files Model.after_setup !! path = files Model.fresh !! path.
Proof.
split; [apply session_setup|].
exact (setup_writes_verifier Model.lib lib_laws Model.master Model.fresh
         Model.after_setup session_setup).
Defined.

Lemma setup_on_full_device_locks_witness :
utf8_encode Model.successor = Some Model.successor_bytes /\
write_budget Model.full_disk = Some 5%nat /\
exists w',
  setup_master_password Model.lib Model.successor Model.full_disk
  = (Return false, w') /\
  forall q, verify_master_password Model.lib q w' = (Return false, w').
Proof.
split; [compute_done|]. split; [compute_done|].
apply (setup_on_full_device_locks Model.lib lib_laws Model.successor
         Model.successor_bytes Model.full_disk 5);
  [compute_done | compute_done | lia].
Defined.

Lemma short_verifier_rejects_witness :
files Model.cut_verifier !! "master.key" = Some (take 5 Model.verifier) /\
verify_master_password Model.lib Model.master Model.cut_verifier
= (Return false, Model.cut_verifier).
Proof.
split; [compute_done|].
apply (short_verifier_rejects Model.lib lib_laws Model.master
         Model.cut_verifier (take 5 Model.verifier)).
- compute_done.
- rewrite length_take. lia.
Defined.

Lemma verified_key_is_on_file_witness :
verify_master_password Model.lib Model.master Model.after_setup
= (Return true, Model.after_setup) /\
exists f,
  files Model.after_setup !! "master.key" = Some f /\
  get_master_key Model.lib Model.master Model.after_setup
  = (Return (Some (take KEY_SIZE (drop SALT_SIZE f))), Model.after_setup).
Proof.
split; [apply session_verifies|].
exact (verified_key_is_on_file Model.lib Model.master Model.after_setup
         session_verifies).
Defined.


Lemma encrypt_decrypt_password_roundtrip_witness :
utf8_encode (lit "secret123") = Some (byte_of_N <$> lit "secret123") /\
length Model.key1 = KEY_SIZE /\
exists text w',
  encrypt_password Model.lib (DStr (lit "secret123")) (Some Model.key1)
    Model.fresh = (Return text, w') /\
  ascii_str text /\
  forall S (s : S),
    decrypt_password Model.lib text (Some Model.key1) s
    = (Return (Some (lit "secret123")), s).
Proof.
split; [compute_done|]. split; [reflexivity|].
apply (encrypt_decrypt_password_roundtrip Model.lib lib_laws
         (lit "secret123") (byte_of_N <$> lit "secret123") Model.key1
         Model.fresh); [compute_done | reflexivity].
Defined.

Lemma new_without_verifier_witness :
files Model.fresh !! "master.key" = None /\
new Model.lib Model.master Model.fresh
= (Return {| master_key := None; db_file := "passwords.db";
             passwords := [] |}, Model.fresh).
Proof.
split; [reflexivity|].
exact (proj1 (new_without_verifier Model.lib Model.master Model.fresh
                eq_refl)).
Defined.

Lemma verified_open_is_ready_witness :
fst (verify_master_password Model.lib Model.master Model.after_setup)
= Return true /\
exists o f,
  new Model.lib Model.master Model.after_setup = (Return o, Model.after_setup) /\
  files Model.after_setup !! "master.key" = Some f /\
  ready o (take KEY_SIZE (drop SALT_SIZE f)).
Proof.
assert (fst (verify_master_password Model.lib Model.master Model.after_setup)
        = Return true) as H by (by rewrite session_verifies).
split; [exact H|].
exact (verified_open_is_ready Model.lib lib_laws Model.master
         Model.after_setup H).
Defined.

Lemma save_then_load_witness :
ready Model.owner Model.key /\ is_dict (passwords Model.owner) /\
call (_save_passwords Model.lib) Model.owner Model.vault
= (Return true, Model.saved.1.2, Model.saved.2) /\
Model.saved.1.2 = Model.owner /\
call (_load_passwords Model.lib) Model.saved.1.2 Model.saved.2
= (Return (passwords Model.owner), Model.saved.1.2, Model.saved.2).
Proof.
split; [apply session_ready|]. split; [apply session_is_dict|].
split; [apply session_saved|].
exact (save_then_load Model.lib lib_laws Model.owner Model.vault Model.key
         _ _ session_ready session_is_dict session_saved).
Defined.

Lemma add_then_get_witness :
ready Model.owner Model.key /\
utf8_encode (lit "hunter2") = Some (byte_of_N <$> lit "hunter2") /\
exists r o1 w1,
  call (add_password Model.lib (lit "gitlab") (lit "me") (DStr (lit "hunter2")))
    Model.owner Model.vault = (Return r, o1, w1) /\
  (write_budget Model.vault = None -> r = true) /\
  call (get_password Model.lib (lit "gitlab") (lit "me")) o1 w1
  = (Return (Some (lit "gitlab", lit "me", Some (lit "hunter2"),
                   today Model.vault)), o1, w1).
Proof.
split; [apply session_ready|]. split; [compute_done|].
apply (add_then_get Model.lib lib_laws Model.owner Model.vault Model.key
         (lit "gitlab") (lit "me") (lit "hunter2")
         (byte_of_N <$> lit "hunter2"));
  [apply session_ready | compute_done].
Defined.

Lemma add_password_frame_witness :
ready Model.owner Model.key /\
utf8_encode (lit "hunter2") = Some (byte_of_N <$> lit "hunter2") /\
exists r o1 w1,
  call (add_password Model.lib (lit "gitlab") (lit "me") (DStr (lit "hunter2")))
    Model.owner Model.vault = (Return r, o1, w1) /\
  (forall id, id ≠ password_id (lit "gitlab") (lit "me") ->
     dict_get id (passwords o1) = dict_get id (passwords Model.owner)) /\
  length (passwords o1)
  = (length (passwords Model.owner)
     + if dict_in (password_id (lit "gitlab") (lit "me"))
            (passwords Model.owner) then 0 else 1)%nat.
Proof.
split; [apply session_ready|]. split; [compute_done|].
apply (add_password_frame Model.lib lib_laws Model.owner Model.vault Model.key
         (lit "gitlab") (lit "me") (lit "hunter2")
         (byte_of_N <$> lit "hunter2"));
  [apply session_ready | compute_done].
Defined.

Lemma add_password_refuses_witness :
exists w',
  call (add_password Model.lib (lit "gitlab") (lit "me") DNone)
    Model.owner Model.vault = (Return false, Model.owner, w') /\
  files w' = files Model.vault.
Proof.
apply (add_password_refuses Model.lib Model.owner Model.vault
         (lit "gitlab") (lit "me") DNone).
right. reflexivity.
Defined.

Lemma add_then_reopen_witness :
ready Model.owner Model.key /\ is_dict (passwords Model.owner) /\
write_budget Model.vault = None /\
utf8_encode (lit "hunter2") = Some (byte_of_N <$> lit "hunter2") /\
fst (get_master_key Model.lib Model.master Model.vault)
= Return (Some Model.key) /\
exists o1 w1,
  call (add_password Model.lib (lit "gitlab") (lit "me") (DStr (lit "hunter2")))
    Model.owner Model.vault = (Return true, o1, w1) /\
  dict_in (password_id (lit "gitlab") (lit "me")) (passwords o1) = true /\
  new Model.lib Model.master w1 = (Return o1, w1).
Proof.
split; [apply session_ready|]. split; [apply session_is_dict|].
split; [compute_done|]. split; [compute_done|].
split; [apply session_master_key|].
apply (add_then_reopen Model.lib lib_laws Model.owner Model.vault Model.key
         Model.master (lit "gitlab") (lit "me") (lit "hunter2")
         (byte_of_N <$> lit "hunter2"));
  [apply session_ready | apply session_is_dict | compute_done | compute_done
  | apply session_master_key].
Defined.

Lemma search_passwords_empty_query_witness :
Model.lower [] = [] /\
call (search_passwords Model.lib Model.lower []) Model.owner Model.vault
= call (get_all_passwords Model.lib) Model.owner Model.vault.
Proof.
split; [reflexivity|].
exact (search_passwords_empty_query Model.lib Model.lower Model.owner
         Model.vault [] eq_refl).
Defined.

Lemma delete_password_frame_witness :
is_dict (passwords Model.owner) /\
dict_in (password_id (lit "github") (lit "me")) (passwords Model.owner) = true /\
exists r o1 w1,
  call (delete_password Model.lib (lit "github") (lit "me"))
    Model.owner Model.vault = (Return r, o1, w1) /\
  dict_get (password_id (lit "github") (lit "me")) (passwords o1) = None /\
  (forall id, id ≠ password_id (lit "github") (lit "me") ->
     dict_get id (passwords o1) = dict_get id (passwords Model.owner)) /\
  (length (passwords o1) + 1 = length (passwords Model.owner))%nat.
Proof.
split; [apply session_is_dict|]. split; [compute_done|].
apply (delete_password_frame Model.lib lib_laws Model.owner Model.vault
         (lit "github") (lit "me")); [apply session_is_dict | compute_done].
Defined.

Lemma vault_stays_sound_witness :
ready Model.owner Model.key /\
sound Model.lib Model.key (passwords Model.owner) /\
(forall sv un p r o' w',
   call (add_password Model.lib sv un (DStr p)) Model.owner Model.vault
   = (r, o', w') ->
   sound Model.lib Model.key (passwords o')) /\
(forall sv un r o' w',
   call (delete_password Model.lib sv un) Model.owner Model.vault
   = (r, o', w') ->
   sound Model.lib Model.key (passwords o')).
Proof.
split; [apply session_ready|]. split; [apply session_sound|].
exact (vault_stays_sound Model.lib lib_laws Model.owner Model.vault Model.key
         session_ready session_sound).
Defined.

Lemma change_master_password_redates_witness :
is_dict (passwords Model.owner) /\ keyed (passwords Model.owner) /\
write_budget Model.vault = None /\
utf8_encode Model.successor = Some Model.successor_bytes /\
exists o' w',
  call (change_master_password Model.lib Model.successor)
    Model.owner Model.vault = (Return true, o', w') /\
  Forall (fun kv => date kv.2 = today Model.vault) (passwords o').
Proof.
split; [apply session_is_dict|]. split; [apply session_keyed|].
split; [compute_done|]. split; [compute_done|].
apply (change_master_password_redates Model.lib lib_laws Model.owner
         Model.vault Model.successor Model.successor_bytes);
  [apply session_is_dict | apply session_keyed | compute_done | compute_done].
Defined.

Lemma change_master_password_drops_unreadable_witness :
is_dict (passwords Model.owner) /\ keyed (passwords Model.owner) /\
write_budget Model.vault = None /\
utf8_encode Model.successor = Some Model.successor_bytes /\
exists o' w',
  call (change_master_password Model.lib Model.successor)
    Model.owner Model.vault = (Return true, o', w') /\
  (passwords o').*1
  = (filter (fun kv => readable Model.lib (master_key Model.owner) kv = true)
       (passwords Model.owner)).*1.
Proof.
split; [apply session_is_dict|]. split; [apply session_keyed|].
split; [compute_done|]. split; [compute_done|].
apply (change_master_password_drops_unreadable Model.lib lib_laws Model.owner
         Model.vault Model.successor Model.successor_bytes);
  [apply session_is_dict | apply session_keyed | compute_done | compute_done].
Defined.
End SessionMore.
